(** * Shallow embedding of list-calibre-collection.py and list-zotero-collection.py

    The two scripts export a Calibre e-book catalog and a Zotero library as
    text/HTML/PDF reports and can email a selected record.  This file embeds
    the parts that decide the report ordering, the error handling of the
    per-record formatting, the data-source fallback chains, the tag filter,
    the email selection and the attachment logic.

    Conventions of the embedding:
    - A Python exception is an [Err msg] value, [msg] being [str(e)].
    - External services (SQLite, Google Drive, Zotero API, SMTP, pdfkit)
      are oracles: functions passed as arguments that give the outcome of
      each call.
    - The non-determinism of [concurrent.futures.as_completed] is a
      completion order: any permutation of the submitted futures.
    - [random.choice(seq)] is [seq[randbelow(len(seq))]]; the drawn number
      is an argument [r] and the index is [r mod len(seq)]. *)

From Stdlib Require Import List String Ascii Bool Arith Lia Permutation Sorted.
Import ListNotations.
Open Scope list_scope.
Open Scope string_scope.

(** ** Python values used by both scripts *)

Inductive result (A : Type) : Type :=
| Ok (a : A)
| Err (msg : string).
Arguments Ok {A} a.
Arguments Err {A} msg.

(** [enumerate(xs)] *)
Definition enumerate {A : Type} (xs : list A) : list (nat * A) :=
  combine (seq 0 (List.length xs)) xs.

(** Decimal rendering of a non-negative int, [str(n)] / [f"{n}"]. *)
Fixpoint str_of_nat_aux (fuel n : nat) (acc : string) : string :=
  match fuel with
  | 0 => acc
  | S fuel' =>
      let acc' := String (ascii_of_nat (48 + n mod 10)) acc in
      if Nat.ltb n 10 then acc' else str_of_nat_aux fuel' (n / 10) acc'
  end.

Definition str_of_nat (n : nat) : string := str_of_nat_aux (S n) n "".

(** [a in b] for two Python strings: substring test. *)
Fixpoint is_prefix (p s : string) : bool :=
  match p, s with
  | EmptyString, _ => true
  | String c p', String d s' => Ascii.eqb c d && is_prefix p' s'
  | String _ _, EmptyString => false
  end.

Fixpoint str_contains (s p : string) : bool :=
  is_prefix p s ||
  match s with
  | EmptyString => false
  | String _ s' => str_contains s' p
  end.

(** [str.lower()] on code points below 256: [A-Z] and the Latin-1
    capitals (192 to 222, apart from 215) move up by 32. *)
Definition lower_ascii (c : ascii) : ascii :=
  let n := nat_of_ascii c in
  if (Nat.leb 65 n && Nat.leb n 90)
     || (Nat.leb 192 n && Nat.leb n 222 && negb (Nat.eqb n 215))
  then ascii_of_nat (n + 32) else c.

Fixpoint lower (s : string) : string :=
  match s with
  | EmptyString => EmptyString
  | String c s' => String (lower_ascii c) (lower s')
  end.

(** [str.strip()]: the characters of [str.isspace()] below 256, that is
    9 to 13, 28 to 32, 133 and 160. *)
Definition is_ws (c : ascii) : bool :=
  let n := nat_of_ascii c in
  (Nat.leb 9 n && Nat.leb n 13) || (Nat.leb 28 n && Nat.leb n 32)
  || Nat.eqb n 133 || Nat.eqb n 160.

Fixpoint lstrip (s : string) : string :=
  match s with
  | EmptyString => EmptyString
  | String c s' => if is_ws c then lstrip s' else s
  end.

Fixpoint rstrip (s : string) : string :=
  match s with
  | EmptyString => EmptyString
  | String c s' =>
      match rstrip s' with
      | EmptyString => if is_ws c then EmptyString else String c EmptyString
      | r => String c r
      end
  end.

Definition strip (s : string) : string := rstrip (lstrip s).

(** ** Parallel formatting and reassembly (generate_text_output,
    generate_books_html, generate_items_html)

    Every record [i] is submitted as a future; the futures are then consumed
    in completion order by [as_completed].  Each one appends
    [(idx, future.result())], or [(idx, <error text>)] when [result()]
    raises.  The list is then sorted by [x[0]] and the texts are kept. *)

Section Reassembly.

(** The text appended when [future.result()] raises, from the index and
    the exception message. *)
Variable on_error : nat -> string -> string.

Definition collect_one (idx : nat) (r : result string) : nat * string :=
  match r with
  | Ok s => (idx, s)
  | Err e => (idx, on_error idx e)
  end.

(** The [for future in as_completed(...)] loop; [completed] lists the
    futures' indices and outcomes in the order they complete. *)
Definition collect_completed (completed : list (nat * result string))
  : list (nat * string) :=
  fold_left (fun acc '(idx, r) => (acc ++ [collect_one idx r])%list) completed [].

End Reassembly.

(** [list.sort(key=lambda x: x[0])]: a stable sort on the index. *)
Fixpoint insert_by_index (p : nat * string) (l : list (nat * string))
  : list (nat * string) :=
  match l with
  | [] => [p]
  | q :: l' => if Nat.ltb (fst p) (fst q) then p :: l else q :: insert_by_index p l'
  end.

Definition sort_by_index (l : list (nat * string)) : list (nat * string) :=
  fold_left (fun acc p => insert_by_index p acc) l [].

(** [sort] then [[text for _, text in formatted]]. *)
Definition reassemble (collected : list (nat * string)) : list string :=
  map snd (sort_by_index collected).

(** One run of the pool: the tasks are [task i x] for [(i, x)] in
    [enumerate(records)]; [completion] is the order in which the futures
    finish, a permutation of the submitted ones. *)
Definition run_pool {A : Type} (task : nat -> A -> result string)
  (on_error : nat -> string -> string) (completion : list (nat * A))
  : list string :=
  reassemble
    (collect_completed on_error
       (map (fun '(i, x) => (i, task i x)) completion)).

(** Side effects of the display functions, in order. *)
Inductive effect : Type :=
| Print (line : string)
| WriteFile (path content : string).

(** [choices=['text', 'html', 'pdf']] *)
Inductive output_format : Type := Text | Html | Pdf.

(** [if output_file:]: [None] and [""] are both false. *)
Definition given_file (output_file : option string) : option string :=
  match output_file with
  | Some f => if String.eqb f "" then None else Some f
  | None => None
  end.

(** [main]'s [except Exception: sys.exit(1)] around the display, and
    [sys.exit(1)] in [generate_pdf_output]: an [Err] ends with exit code 1,
    normal return with 0. *)
Definition exit_code {A : Type} (r : result A) : nat :=
  match r with
  | Ok _ => 0
  | Err _ => 1
  end.

(** ["=" * n] *)
Fixpoint repeat_str (s : string) (n : nat) : string :=
  match n with
  | 0 => ""
  | S n' => s ++ repeat_str s n'
  end.

(** [if x:] on an optional string: [None] and [""] are false. *)
Definition truthy (x : option string) : option string := given_file x.

(** The data sources, in the priority order of both scripts. *)
Inductive source : Type := LocalFile | DriveFile | RemoteApi.

(** [s.endswith(suffix)] *)
Definition ends_with (suffix s : string) : bool :=
  let n := String.length s in
  let k := String.length suffix in
  (Nat.leb k n) && String.eqb (substring (n - k) k s) suffix.

(** [random.choice(seq)] with the drawn number [r]. *)
Definition random_choice {A : Type} (seq : list A) (r : nat) : option A :=
  nth_error seq (r mod List.length seq).

(** ** list-calibre-collection.py *)
Module Calibre.

(** A row of [list_calibre_books], as the dict it builds. *)
Record book : Type := mk_book {
  book_id : nat;
  title : option string;
  authors : list string;
  path : string;
  pubdate : option string;
  isbn : option string;
  series : option string;
  series_index : option string;
  publisher : option string;
  formats : list (string * string);  (* (format, name) rows of [data] *)
  timestamp : string
}.

(** Dict equality [==], used by [m not in selected_books]. *)
Definition book_eq_dec (x y : book) : {x = y} + {x <> y}.
Proof.
  decide equality;
    repeat first [ apply string_dec | apply Nat.eq_dec
                 | apply list_eq_dec | decide equality ].
Defined.

Section Report.

(** [format_book_text] / [format_book_html]: they may raise, e.g. from the
    Drive queries of [get_attachment_paths]. *)
Variable format_book_text : book -> result string.
Variable format_book_html : book -> result string.
(** The report title computed from the date and the tags. *)
Variable report_title : string.
(** [generate_html_header(title, notice)], [generate_search_container()]
    and [generate_search_script()]: fixed lists of lines. *)
Variables html_header search_container search_script : list string.
(** [pdfkit.from_string]: the PDF bytes, or the exception it raises. *)
Variable pdf_engine : string -> result string.

(** The nested [format_single_book] of [generate_text_output]. *)
Definition format_single_book_text (idx : nat) (b : book) : result string :=
  match format_book_text b with
  | Ok content =>
      Ok ("Book #" ++ str_of_nat (idx + 1) ++ "
" ++ content ++ "
---")
  | Err e =>
      Ok ("Error formatting book " ++ str_of_nat (idx + 1) ++ ": " ++ e ++ "
---")
  end.

Definition text_result_error (idx : nat) (e : string) : string :=
  "Error processing book " ++ str_of_nat (idx + 1) ++ ": " ++ e ++ "
---".

Definition text_header : list string :=
  [report_title; repeat_str "=" (String.length report_title); ""].

(** [generate_text_output]; [completion] is the completion order of the
    futures submitted for [enumerate(books)]. *)
Definition generate_text_output (completion : list (nat * book)) : string :=
  String.concat "
"
    (text_header
     ++ run_pool format_single_book_text text_result_error completion)%list.

(** The top-level [format_single_book] used for HTML. *)
Definition format_single_book (idx : nat) (b : book) : result string :=
  match format_book_html b with
  | Ok content =>
      Ok ("<div class='item-number'>Book #" ++ str_of_nat (idx + 1)
          ++ "</div>" ++ "
" ++ content)
  | Err e =>
      Ok ("<div class='item-error'>Error formatting book "
          ++ str_of_nat (idx + 1) ++ ": " ++ e ++ "</div>")
  end.

Definition html_result_error (idx : nat) (e : string) : string :=
  "<div class='item-error'>Error processing book " ++ str_of_nat (idx + 1)
  ++ ": " ++ e ++ "</div>".

Definition generate_books_html (completion : list (nat * book)) : list string :=
  run_pool format_single_book html_result_error completion.

Definition generate_html_output (completion : list (nat * book)) : string :=
  String.concat "
"
    (html_header ++ search_container ++ generate_books_html completion
     ++ search_script)%list.

(** [generate_pdf_output]: pdfkit writes the file; on an exception the
    script calls [sys.exit(1)]. *)
Definition generate_pdf_output (html_content output_file : string)
  : result (list effect) :=
  match pdf_engine html_content with
  | Ok pdf => Ok [WriteFile output_file pdf]
  | Err e => Err ("Error generating PDF with pdfkit: " ++ e)
  end.

(** [display_books]; progress messages (verbose only) are left out. *)
Definition display_books (books : list book) (fmt : output_format)
  (output_file : option string) (completion : list (nat * book))
  : result (list effect) :=
  match books with
  | [] => Ok [Print "No books found."]
  | _ :: _ =>
      match fmt with
      | Text =>
          let text_content := generate_text_output completion in
          match given_file output_file with
          | Some f => Ok [WriteFile f text_content;
                          Print ("Text output saved to " ++ f)]
          | None => Ok [Print text_content]
          end
      | Html =>
          let html_content := generate_html_output completion in
          match given_file output_file with
          | Some f => Ok [WriteFile f html_content;
                          Print ("HTML output saved to " ++ f)]
          | None => Ok [Print html_content]
          end
      | Pdf =>
          let html_content := generate_html_output completion in
          let f := match given_file output_file with
                   | Some f => f
                   | None => "calibre_books.pdf"
                   end in
          match generate_pdf_output html_content f with
          | Ok eff => Ok (eff ++ [Print ("PDF output saved to " ++ f)%string])%list
          | Err e => Err e
          end
      end
  end.

End Report.

(** *** connect_to_calibre_db *)

(** The database [sqlite3.connect] ends up opening. *)
Inductive db_source : Type :=
| LocalDb (db_path : string)
| DriveDb (file_id : string).

(** What the Drive calls of [connect_to_calibre_db] return. *)
Record drive_view : Type := mk_drive_view {
  (* the folders named 'Calibre Library', in listing order, each with the
     id of the metadata.db found in it, if any *)
  calibre_folders : list (string * option string);
  (* the metadata.db found by name anywhere in Drive (legacy fallback):
     [None] also when [get_drive_url_by_filename] catches an exception of
     its own and returns [None] *)
  anywhere_copy : option string;
  (* the message of an exception raised by one of the Drive calls made in
     the [try] block of [connect_to_calibre_db] itself (build, the listings,
     [search_file_in_drive], the download), if one raises *)
  drive_failure : option string
}.

(** [os.path.join(library_path, name)] for a relative [name]. *)
Definition path_join (a b : string) : string :=
  if String.eqb a "" then b
  else if ends_with "/" a then a ++ b else a ++ "/" ++ b.

Definition not_found_message (db_path : string) : string :=
  "Calibre database not found at " ++ db_path ++ " and not found in Google Drive.".

(** [for folder in folders: ... if results: return ...] *)
Fixpoint first_folder_copy (folders : list (string * option string))
  : option string :=
  match folders with
  | [] => None
  | (_, Some file_id) :: _ => Some file_id
  | (_, None) :: rest => first_folder_copy rest
  end.

(** [connect_to_calibre_db]: the opened database, or the
    [FileNotFoundError] message, with the sources consulted in order. *)
Definition connect_to_calibre_db (library_path : string)
  (path_exists : string -> bool) (google_creds : bool) (drive : drive_view)
  : result db_source * list source :=
  let db_path := path_join library_path "metadata.db" in
  if path_exists db_path then (Ok (LocalDb db_path), [LocalFile])
  else if google_creds then
    (match drive_failure drive with
     | Some e => Err ("Could not find or download Calibre database: " ++ e)
     | None =>
         match first_folder_copy (calibre_folders drive) with
         | Some file_id => Ok (DriveDb file_id)
         | None =>
             match anywhere_copy drive with
             | Some file_id => Ok (DriveDb file_id)
             | None => Err (not_found_message db_path)
             end
         end
     end, [LocalFile; DriveFile])
  else (Err (not_found_message db_path), [LocalFile]).

(** *** Tag filtering in [main] *)

(** [categories = [cat.strip().lower() for cat in args.tag if cat.strip()]] *)
Definition normalize_tags (args_tag : list string) : list string :=
  map (fun c => lower (strip c))
    (filter (fun c => negb (String.eqb (strip c) "")) args_tag).

(** [cat in tag or tag in cat] for some category and some tag. *)
Definition tag_match (categories book_tags : list string) : bool :=
  existsb (fun cat =>
    existsb (fun tag => str_contains tag cat || str_contains cat tag)
      book_tags) categories.

(** The [if categories:] block; [tags_of id] are the tag names the
    per-book query returns. *)
Definition filter_by_tags (tags_of : nat -> list string)
  (categories : list string) (books : list book) : list book :=
  match categories with
  | [] => books
  | _ :: _ =>
      filter (fun b => tag_match categories (map lower (tags_of (book_id b))))
        books
  end.

(** *** Book selection in [main] *)

(** [for bid in args.book_id: found = next(...); if found: append] *)
Definition select_by_ids (books : list book) (book_ids : list nat)
  : list book :=
  fold_left (fun selected bid =>
    match find (fun b => Nat.eqb (book_id b) bid) books with
    | Some found => (selected ++ [found])%list
    | None => selected
    end) book_ids [].

(** [title_query.lower() in (b['title'] or '').lower()] *)
Definition title_matches (title_query : string) (b : book) : bool :=
  str_contains (lower (match title b with Some t => t | None => "" end))
    (lower title_query).

(** [for title_query in args.book_title: ... if m not in selected_books] *)
Definition select_by_titles (books : list book) (book_titles : list string)
  : list book :=
  fold_left (fun selected title_query =>
    fold_left (fun selected m =>
      if in_dec book_eq_dec m selected then selected
      else (selected ++ [m])%list)
      (filter (title_matches title_query) books) selected)
    book_titles [].

(** *** select_random_book and the sent-log file *)

Definition is_newline (c : ascii) : bool :=
  let n := nat_of_ascii c in Nat.eqb n 10 || Nat.eqb n 13.

(** The pieces between line breaks of the file text. *)
Fixpoint split_lines (s : string) : list string :=
  match s with
  | EmptyString => [""]
  | String c s' =>
      if is_newline c then "" :: split_lines s'
      else match split_lines s' with
           | [] => [String c ""]
           | l :: ls => String c l :: ls
           end
  end.

(** [for line in f: line = line.strip(); if line: sent_ids.add(line)];
    a missing file reads as [""]. *)
Definition read_sent_ids (log : string) : list string :=
  filter (fun l => negb (String.eqb l "")) (map strip (split_lines log)).

(** [select_random_book(conn)]: the chosen book and the sent-log file
    contents afterwards ([f.write(f"{id}\n")] in append mode). *)
Definition select_random_book (books : list book) (log : string) (r : nat)
  : option book * string :=
  match books with
  | [] => (None, log)
  | _ :: _ =>
      let sent_ids := read_sent_ids log in
      let unsent_books :=
        filter (fun b => negb (existsb (String.eqb (str_of_nat (book_id b)))
                                 sent_ids)) books in
      match unsent_books with
      | [] => (None, log)
      | _ :: _ =>
          match random_choice unsent_books r with
          | Some selected =>
              (Some selected, log ++ str_of_nat (book_id selected) ++ "
")
          | None => (None, log)
          end
      end
  end.

(** *** send_book_email *)

(** An entry of [get_attachment_paths]. *)
Record attachment : Type := mk_attachment {
  local_path : string;
  drive_url : option string
}.

(** The message built by [send_book_email]: the binary
    [MIMEBase('application', 'octet-stream')] parts (file name, payload)
    and the text body. *)
Record email : Type := mk_email {
  email_to : string;
  email_subject : string;
  binary_parts : list (string * string);
  email_body : string
}.

Definition size_limit : nat := 20 * 1024 * 1024.

Section Mailer.

(** [re.search(r'/d/([a-zA-Z0-9_-]+)', url)] then [r'id=(...)']. *)
Variable extract_file_id : string -> option string.
(** [files().get(fileId, fields="name,size").execute()]: name and
    [int(size)], or the exception. *)
Variable drive_metadata : string -> result (string * nat).
(** The download through [MediaIoBaseDownload]: the bytes or the
    exception. *)
Variable drive_download : string -> result string.

(** The attachment loop: the first file whose size is at most 20 MB and
    whose download succeeds is attached, then the loop breaks; any failure
    of one file is caught and the loop goes on. *)
Fixpoint attach_first (attachments : list attachment)
  : option (string * string) :=
  match attachments with
  | [] => None
  | a :: rest =>
      match truthy (drive_url a) with
      | None => attach_first rest
      | Some url =>
          match extract_file_id url with
          | None => attach_first rest
          | Some file_id =>
              match drive_metadata file_id with
              | Err _ => attach_first rest
              | Ok (name, file_size) =>
                  if Nat.leb file_size size_limit then
                    match drive_download file_id with
                    | Ok bytes => Some (name, bytes)
                    | Err _ => attach_first rest
                    end
                  else attach_first rest
              end
          end
      end
  end.

(** [drive_links.append(f"{local_path}: {drive_url}")] *)
Definition drive_link_lines (attachments : list attachment) : list string :=
  flat_map (fun a =>
    match truthy (drive_url a) with
    | Some url => [local_path a ++ ": " ++ url]
    | None => []
    end) attachments.

Definition email_notice : string :=
  "

This email was sent automatically via the <a href='https://hoanganhduc.github.io/library/zotero/list-calibre-collection.py'>list-calibre-collection.py</a> script.".

(** The body: the text formatting, the Drive links when nothing was
    attached, and the notice. *)
Definition compose_body (text : string) (attached : bool)
  (attachments : list attachment) : string :=
  let links := drive_link_lines attachments in
  let body :=
    if negb attached && negb (match attachments with [] => true | _ => false end)
       && negb (match links with [] => true | _ => false end)
    then text ++ "

Google Drive Links:
" ++ String.concat "
" links
    else text in
  body ++ email_notice.

(** [send_book_email]: the message handed to SMTP, or the exception.
    [attachments] is [get_attachment_paths(book, ...)], [text] the
    outcome of [format_book_text(book, ...)] and [smtp] the outcome of the
    [SMTP_SSL] session; a failure is re-raised. *)
Definition send_book_email (b : book) (attachments : list attachment)
  (text : result string) (google_creds : bool) (recipient : string)
  (smtp : email -> result unit) : result email :=
  let attached := if google_creds then attach_first attachments else None in
  match text with
  | Err e => Err e
  | Ok text =>
      let msg := mk_email recipient
        ("[Calibre] Random Book: " ++ match title b with Some t => t | None => "None" end)
        (match attached with Some p => [p] | None => [] end)
        (compose_body text (match attached with Some _ => true | None => false end)
           attachments) in
      match smtp msg with
      | Ok _ => Ok msg
      | Err e => Err e
      end
  end.

End Mailer.

(** *** The sending loop of [main]

    [for selected_book in selected_books: for recipient in args.recipient:
    send_book_email(...)]; [send b r] is the outcome of one call.  The
    result lists the attempted pairs and the outcome of the loop. *)
Fixpoint send_to_recipients (send : book -> string -> result unit)
  (b : book) (recipients : list string) (attempts : list (book * string))
  : list (book * string) * result unit :=
  match recipients with
  | [] => (attempts, Ok tt)
  | r :: rest =>
      let attempts' := (attempts ++ [(b, r)])%list in
      match send b r with
      | Ok _ => send_to_recipients send b rest attempts'
      | Err e => (attempts', Err e)
      end
  end.

Fixpoint send_selected (send : book -> string -> result unit)
  (selected_books : list book) (recipients : list string)
  (attempts : list (book * string)) : list (book * string) * result unit :=
  match selected_books with
  | [] => (attempts, Ok tt)
  | b :: rest =>
      match send_to_recipients send b recipients attempts with
      | (attempts', Ok _) => send_selected send rest recipients attempts'
      | (attempts', Err e) => (attempts', Err e)
      end
  end.

(** The random path of [main]: [select_random_book], then the sending
    loop.  Returns the sent-log contents afterwards and the exit code. *)
Definition main_random_send (books : list book) (log : string) (r : nat)
  (send : book -> string -> result unit) (recipients : list string)
  : string * nat :=
  match select_random_book books log r with
  | (None, log') => (log', 1)
  | (Some b, log') => (log', exit_code (snd (send_selected send [b] recipients [])))
  end.

End Calibre.

(** ** list-zotero-collection.py *)
Module Zotero.

(** An item dict: its [key] and the [data] fields the code reads. *)
Record item : Type := mk_item {
  key : string;
  item_type : string;
  item_title : option string
}.

(** *** get_items: local database, then Drive copy, then online API *)

(** A row of the item query of [get_items_from_sqlite]. *)
Record sqlite_row : Type := mk_row {
  row_key : string;
  row_type_name : string;
  row_title : option string
}.

(** [row.get('title', 'Unknown')]: [sqlite3.Row] has no [get] method, so
    the call raises [AttributeError]. *)
Definition row_get (r : sqlite_row) (field default : string)
  : result (option string) :=
  Err "'sqlite3.Row' object has no attribute 'get'".

(** [for row in rows: items.append({...})] *)
Fixpoint convert_rows (rows : list sqlite_row) : result (list item) :=
  match rows with
  | [] => Ok []
  | r :: rest =>
      match row_get r "title" "Unknown" with
      | Err e => Err e
      | Ok t =>
          match convert_rows rest with
          | Ok items => Ok (mk_item (row_key r) (row_type_name r) t :: items)
          | Err e => Err e
          end
      end
  end.

(** [get_items_from_sqlite]: [query] is the outcome of [cur.execute] and
    [fetchall]; any exception gives [[]]. *)
Definition get_items_from_sqlite (query : result (list sqlite_row))
  : list item :=
  match query with
  | Err _ => []
  | Ok rows =>
      match convert_rows rows with
      | Ok items => items
      | Err _ => []
      end
  end.

(** [get_items_from_local_db]: [local] is the query outcome on the first
    existing zotero.sqlite path, [None] when no path exists. *)
Definition get_items_from_local_db (local : option (result (list sqlite_row)))
  : list item :=
  match local with
  | Some query => get_items_from_sqlite query
  | None => []
  end.

(** [get_items_from_gdrive]: [drive] is [Err] when a Drive call raises,
    [Ok None] when no downloadable zotero.sqlite is found, [Ok (Some q)]
    with the query outcome on the downloaded copy. *)
Definition get_items_from_gdrive (google_creds : bool)
  (drive : result (option (result (list sqlite_row)))) : list item :=
  if google_creds then
    match drive with
    | Ok (Some query) => get_items_from_sqlite query
    | Ok None => []
    | Err _ => []
    end
  else [].

Definition note_or_attachment (it : item) : bool :=
  String.eqb (item_type it) "note" || String.eqb (item_type it) "attachment".

(** Step 3 of [get_items]: [zot.everything(...)] then the note/attachment
    filter; an exception gives [[]]. *)
Definition items_from_api (api : result (list item)) : list item :=
  match api with
  | Ok items => filter (fun it => negb (note_or_attachment it)) items
  | Err _ => []
  end.

Definition nonempty {A : Type} (l : list A) : bool :=
  match l with [] => false | _ :: _ => true end.

(** [get_items]: the items and the sources consulted, in order. *)
Definition get_items (google_creds : bool)
  (local : option (result (list sqlite_row)))
  (drive : result (option (result (list sqlite_row))))
  (api : result (list item)) : list item * list source :=
  let items := get_items_from_local_db local in
  if nonempty items then (items, [LocalFile])
  else
    let '(items, consulted) :=
      if google_creds
      then (get_items_from_gdrive google_creds drive, [LocalFile; DriveFile])
      else ([], [LocalFile]) in
    if nonempty items then (items, consulted)
    else (items_from_api api, (consulted ++ [RemoteApi])%list).

(** *** Reports *)

(** [f"{collection_name}"]: [None] renders as "None". *)
Definition py_str_opt (s : option string) : string :=
  match s with Some s => s | None => "None" end.

Section Report.

Variable format_item_text : item -> result string.
Variable format_item_html : item -> result string.
Variable collection_name : option string.
Variable report_title : string.
Variables html_header search_container search_script : list string.
Variable pdf_engine : string -> result string.

(** The nested [format_single_item] of [generate_text_output]. *)
Definition format_single_item_text (idx : nat) (it : item) : result string :=
  match format_item_text it with
  | Ok content =>
      Ok (py_str_opt collection_name ++ " #" ++ str_of_nat (idx + 1) ++ "
"
          ++ content ++ "
---")
  | Err e =>
      Ok ("Error formatting item " ++ str_of_nat (idx + 1) ++ ": " ++ e ++ "
---")
  end.

Definition text_result_error (idx : nat) (e : string) : string :=
  "Error processing item " ++ str_of_nat (idx + 1) ++ ": " ++ e ++ "
---".

Definition generate_text_output (completion : list (nat * item)) : string :=
  String.concat "
"
    ([report_title; repeat_str "=" (String.length report_title); ""]
     ++ run_pool format_single_item_text text_result_error completion)%list.

(** The top-level [format_single_item] used for HTML. *)
Definition format_single_item (idx : nat) (it : item) : result string :=
  match format_item_html it with
  | Ok content =>
      Ok ("<div class='item-number'>" ++ py_str_opt collection_name ++ " #"
          ++ str_of_nat (idx + 1) ++ "</div>" ++ "
" ++ content)
  | Err e =>
      Ok ("<div class='item-error'>Error formatting item "
          ++ str_of_nat (idx + 1) ++ ": " ++ e ++ "</div>")
  end.

Definition html_result_error (idx : nat) (e : string) : string :=
  "<div class='item-error'>Error processing item " ++ str_of_nat (idx + 1)
  ++ ": " ++ e ++ "</div>".

Definition generate_items_html (completion : list (nat * item)) : list string :=
  run_pool format_single_item html_result_error completion.

Definition generate_html_output (completion : list (nat * item)) : string :=
  String.concat "
"
    (html_header ++ search_container ++ generate_items_html completion
     ++ search_script)%list.

Definition generate_pdf_output (html_content output_file : string)
  : result (list effect) :=
  match pdf_engine html_content with
  | Ok pdf => Ok [WriteFile output_file pdf]
  | Err e => Err ("Error generating PDF with pdfkit: " ++ e)
  end.

(** [display_items]; progress messages are left out. *)
Definition display_items (items : list item) (fmt : output_format)
  (output_file : option string) (completion : list (nat * item))
  : result (list effect) :=
  match items with
  | [] => Ok [Print "No items found."]
  | _ :: _ =>
      match fmt with
      | Text =>
          let text_content := generate_text_output completion in
          match given_file output_file with
          | Some f => Ok [WriteFile f text_content;
                          Print ("Text output saved to " ++ f)]
          | None => Ok [Print text_content]
          end
      | Html =>
          let html_content := generate_html_output completion in
          match given_file output_file with
          | Some f => Ok [WriteFile f html_content;
                          Print ("HTML output saved to " ++ f)]
          | None => Ok [Print html_content]
          end
      | Pdf =>
          let html_content := generate_html_output completion in
          let f := match given_file output_file with
                   | Some f => f
                   | None => "zotero_items.pdf"
                   end in
          match generate_pdf_output html_content f with
          | Ok eff => Ok (eff ++ [Print ("PDF output saved to " ++ f)])%list
          | Err e => Err e
          end
      end
  end.

End Report.

(** *** send_email_with_attachments and send_paper_by_email *)

(** The MIME message: recipients, subject, body and the binary
    [MIMEBase('application', 'octet-stream')] parts (file name, payload). *)
Record message : Type := mk_message {
  msg_to : list string;
  msg_subject : string;
  msg_body : string;
  binary_parts : list (string * string)
}.

(** [attachment_item] of [send_paper_by_email]. *)
Record attachment_item : Type := mk_attachment_item {
  att_filename : string;
  att_drive_url : string;
  att_path : option string;
  att_size : nat;
  att_success : bool
}.

(** [paper_info] of [send_paper_by_email]. *)
Record paper_info : Type := mk_paper_info {
  info_title : string;
  info_authors : list string;
  info_doi : option string;
  info_attachments : list attachment_item
}.

(** [size_limit = 20 * 1024 * 1024] *)
Definition size_limit : nat := 20 * 1024 * 1024.

(** How the papers are chosen: [random_paper=True] with the items of
    [get_items(zot, item_type="journalArticle")] and the drawn number, or
    the results of [find_papers_by_title]. *)
Inductive selection : Type :=
| RandomPaper (all_papers : list item) (r : nat)
| ByTitle (found : list item).

Definition choose_papers (sel : selection) (max_papers : nat)
  : option (list item) :=
  match sel with
  | RandomPaper all_papers r =>
      match random_choice all_papers r with
      | Some paper => Some [paper]
      | None => None
      end
  | ByTitle found =>
      match found with
      | [] => None
      | _ :: _ => Some (firstn max_papers found)
      end
  end.

Section Mailer.

(** [os.path.exists(file_path)] and [open(file_path, 'rb').read()];
    [None] when the file is missing or reading raises (caught). *)
Variable read_attachment : string -> option string.
(** [os.path.basename] *)
Variable basename : string -> string.
(** [get_attachment_paths(zot, paper, ...)]: (local_path, drive_url). *)
Variable attachment_paths : item -> list (string * option string).
(** [extract_file_id_from_drive_url] *)
Variable extract_file_id_from_drive_url : string -> option string.
(** [download_file_from_drive] followed by [os.path.getsize]: the path and
    size, or [None] when it fails. *)
Variable download_file_from_drive : string -> option (string * nat).
(** The creators and [extract_doi(paper)]. *)
Variable authors_of : item -> list string.
Variable extract_doi : item -> option string.

(** [send_email_with_attachments]: one SMTP session for all recipients;
    [smtp] is its outcome.  Returns the boolean and the message. *)
Definition send_email_with_attachments (to_emails : list string)
  (subject body : string) (attachments : option (list string))
  (smtp : message -> result unit) : bool * message :=
  let parts :=
    match attachments with
    | None => []
    | Some paths =>
        flat_map (fun p =>
          match read_attachment p with
          | Some bytes => [(basename p, bytes)]
          | None => []
          end) paths
    end in
  let msg := mk_message to_emails subject body parts in
  match smtp msg with
  | Ok _ => (true, msg)
  | Err _ => (false, msg)
  end.

(** The body of [for attachment_info in attachments:]. *)
Definition process_attachment (a : string * option string)
  : option attachment_item :=
  let '(local_path, drive_url) := a in
  match truthy drive_url with
  | None => None
  | Some url =>
      match extract_file_id_from_drive_url url with
      | None => None
      | Some file_id =>
          let filename := basename local_path in
          match download_file_from_drive file_id with
          | Some (path, file_size) =>
              Some (mk_attachment_item filename url (Some path) file_size true)
          | None => Some (mk_attachment_item filename url None 0 false)
          end
      end
  end.

Definition paper_info_of (paper : item) : paper_info :=
  mk_paper_info
    (match item_title paper with Some t => t | None => "Unknown" end)
    (authors_of paper) (extract_doi paper)
    (flat_map (fun a => match process_attachment a with
                        | Some x => [x]
                        | None => []
                        end) (attachment_paths paper)).

(** [if paper_info['attachments']: paper_info_list.append(paper_info)] *)
Definition paper_info_list (papers : list item) : list paper_info :=
  filter (fun pi => nonempty (info_attachments pi)) (map paper_info_of papers).

Definition total_size (infos : list paper_info) : nat :=
  fold_left (fun acc pi =>
    fold_left (fun acc a => acc + att_size a) (info_attachments pi) acc)
    infos 0.

Definition default_subject (infos : list paper_info) : string :=
  match infos with
  | [pi] => "Paper: " ++ info_title pi
  | pi :: _ => "Papers: " ++ info_title pi ++ " and "
               ++ str_of_nat (List.length infos - 1) ++ " more"
  | [] => ""
  end.

Definition attachment_line (exceed : bool) (a : attachment_item) : string :=
  if exceed || negb (att_success a)
  then "- " ++ att_filename a ++ " - " ++ att_drive_url a
  else "- " ++ att_filename a.

Definition paper_lines (exceed : bool) (pi : paper_info) : list string :=
  ["
## " ++ info_title pi]
  ++ (match info_authors pi with
      | [] => []
      | authors => ["Authors: " ++ String.concat "; " authors]
      end)
  ++ (match truthy (info_doi pi) with
      | Some doi => ["DOI: " ++ doi ++ " (https://doi.org/" ++ doi ++ ")"]
      | None => []
      end)
  ++ ["Attachments:"]
  ++ map (attachment_line exceed) (info_attachments pi).

Definition default_body_lines (random_paper exceed : bool)
  (infos : list paper_info) : list string :=
  [if random_paper then "Here is a randomly selected journal article:"
   else if exceed
   then "Here are links to the requested paper(s) (exceeds 20MB email limit):"
   else "Here are the requested paper(s):"]
  ++ flat_map (paper_lines exceed) infos
  ++ ["

This email was sent automatically via the <a href='https://hoanganhduc.github.io/library/zotero/list-zotero-collection.py'>list-zotero-collection.py</a> script."].

(** [valid_attachment_paths] *)
Definition valid_attachment_paths (infos : list paper_info) : list string :=
  flat_map (fun pi =>
    flat_map (fun a => if att_success a
                       then match att_path a with Some p => [p] | None => [] end
                       else []) (info_attachments pi)) infos.

(** [send_paper_by_email]: the returned boolean and the message handed to
    SMTP, if one is built.  Deleting the downloaded files is left out. *)
Definition send_paper_by_email (sel : selection) (max_papers : nat)
  (google_creds : bool) (subject body : option string)
  (recipients : list string) (smtp : message -> result unit)
  : bool * option message :=
  match choose_papers sel max_papers with
  | None => (false, None)
  | Some papers =>
      if negb google_creds then (false, None)
      else
        let infos := paper_info_list papers in
        match infos with
        | [] => (false, None)
        | _ :: _ =>
            let exceed := Nat.ltb size_limit (total_size infos) in
            let random_paper :=
              match sel with RandomPaper _ _ => true | ByTitle _ => false end in
            let subject :=
              match truthy subject with
              | Some s => s
              | None => default_subject infos
              end in
            let body :=
              match truthy body with
              | Some b => b
              | None => String.concat "
" (default_body_lines random_paper exceed infos)
              end in
            let attachments :=
              if exceed then None else Some (valid_attachment_paths infos) in
            let '(sent, msg) :=
              send_email_with_attachments recipients subject body attachments smtp in
            (sent, Some msg)
        end
  end.

End Mailer.

End Zotero.

(** ** Notions used in the statements *)

(** [conn = connect_to_calibre_db(...)] followed by
    [books = list_calibre_books(conn)]; [catalog db] are the rows of the
    opened database in [ORDER BY books.timestamp DESC] order. *)
Definition calibre_locate_books (library_path : string)
  (path_exists : string -> bool) (google_creds : bool)
  (drive : Calibre.drive_view) (catalog : Calibre.db_source -> list Calibre.book)
  : result (list Calibre.book) * list source :=
  let '(conn, consulted) :=
    Calibre.connect_to_calibre_db library_path path_exists google_creds drive in
  (match conn with
   | Ok db => Ok (catalog db)
   | Err e => Err e
   end, consulted).

(** The sources [get_items] may consult, in priority order. *)
Definition zotero_priority (google_creds : bool) : list source :=
  LocalFile :: (if google_creds then [DriveFile] else []) ++ [RemoteApi].

(** What each source of [get_items] yields once its errors are caught. *)
Definition zotero_yield (google_creds : bool)
  (local : option (result (list Zotero.sqlite_row)))
  (drive : result (option (result (list Zotero.sqlite_row))))
  (api : result (list Zotero.item)) (s : source) : list Zotero.item :=
  match s with
  | LocalFile => Zotero.get_items_from_local_db local
  | DriveFile => Zotero.get_items_from_gdrive google_creds drive
  | RemoteApi => Zotero.items_from_api api
  end.

(** The attempts of a sequential send loop over [pairs]: either every pair
    was attempted and succeeded, or the attempts stop right after the first
    failing pair, whose exception is the outcome. *)
Definition sequential_outcome {B : Type} (send : B -> string -> result unit)
  (pairs attempts : list (B * string)) (outcome : result unit) : Prop :=
  (outcome = Ok tt /\ attempts = pairs
   /\ Forall (fun p => send (fst p) (snd p) = Ok tt) pairs)
  \/ (exists pre p post e,
        pairs = (pre ++ p :: post)%list /\ attempts = (pre ++ [p])%list
        /\ Forall (fun p => send (fst p) (snd p) = Ok tt) pre
        /\ send (fst p) (snd p) = Err e /\ outcome = Err e).

(** The same loop over a flat list of pairs. *)
Fixpoint send_pairs {B : Type} (send : B -> string -> result unit)
  (pairs : list (B * string)) (attempts : list (B * string))
  : list (B * string) * result unit :=
  match pairs with
  | [] => (attempts, Ok tt)
  | (b, r) :: rest =>
      let attempts' := (attempts ++ [(b, r)])%list in
      match send b r with
      | Ok _ => send_pairs send rest attempts'
      | Err e => (attempts', Err e)
      end
  end.

(** All characters of a string satisfy [p]. *)
Fixpoint all_chars (p : ascii -> bool) (s : string) : bool :=
  match s with
  | EmptyString => true
  | String c s' => p c && all_chars p s'
  end.

Definition is_digit (c : ascii) : bool :=
  Nat.leb 48 (nat_of_ascii c) && Nat.leb (nat_of_ascii c) 57.

(** The order on (index, fragment) pairs used by the reassembly proofs. *)
Definition key_le (p q : nat * string) : Prop := fst p <= fst q.

(** ** String helpers for the remaining functions *)

(** [s[n:]] *)
Fixpoint str_drop (n : nat) (s : string) : string :=
  match n, s with
  | 0, _ => s
  | S _, EmptyString => EmptyString
  | S n', String _ s' => str_drop n' s'
  end.

(** [s[len(p):]] when [s.startswith(p)]. *)
Fixpoint strip_prefix (p s : string) : option string :=
  match p, s with
  | EmptyString, _ => Some s
  | String c p', String d s' => if Ascii.eqb c d then strip_prefix p' s' else None
  | String _ _, EmptyString => None
  end.

(** [s.find(p)], [None] for [-1]. *)
Fixpoint str_find (s p : string) : option nat :=
  if is_prefix p s then Some 0
  else match s with
       | EmptyString => None
       | String _ s' => option_map S (str_find s' p)
       end.

(** [s.split(sep)] for a non-empty [sep]: occurrences are cut from left to
    right; [fuel] bounds the number of steps, [S (length s)] is enough. *)
Fixpoint split_on_fuel (fuel : nat) (sep s : string) : list string :=
  match fuel with
  | 0 => [s]
  | S fuel' =>
      match s with
      | EmptyString => [""]
      | String c s' =>
          match strip_prefix sep s with
          | Some rest => "" :: split_on_fuel fuel' sep rest
          | None =>
              match split_on_fuel fuel' sep s' with
              | [] => [String c ""]
              | p :: ps => String c p :: ps
              end
          end
      end
  end.

Definition split_on (sep s : string) : list string :=
  split_on_fuel (S (String.length s)) sep s.

(** ["\n"] *)
Definition newline : string := String "010"%char "".

(** ** Regular-expression searches

    [m t] is the match of a pattern anchored at the start of [t] (the group
    the code reads); [re.search] returns it at the leftmost position of [s]
    where there is one. *)
Fixpoint re_search (m : string -> option string) (s : string) : option string :=
  match m s with
  | Some g => Some g
  | None =>
      match s with
      | EmptyString => None
      | String _ s' => re_search m s'
      end
  end.

(** The greedy run of characters satisfying [p] at the start of [s]. *)
Fixpoint take_while (p : ascii -> bool) (s : string) : string :=
  match s with
  | String c s' => if p c then String c (take_while p s') else EmptyString
  | EmptyString => EmptyString
  end.

(** [lit([cls]+)] anchored at the start: the literal, then the greedy
    non-empty run of [cls], which is group 1.  Nothing follows the run in
    the patterns that use it, so backtracking never changes the match. *)
Definition lit_run (lit : string) (cls : ascii -> bool) (s : string)
  : option string :=
  match strip_prefix lit s with
  | Some rest =>
      match take_while cls rest with
      | EmptyString => None
      | g => Some g
      end
  | None => None
  end.

(** [\s] on a string of code points below 256: the characters of
    [str.isspace()]. *)
Definition re_space (c : ascii) : bool := is_ws c.

(** ** Google Drive links *)

(** The file id read from a Drive link by [send_book_email] of the Calibre
    script: [re.search(r'/d/([a-zA-Z0-9_-]+)', drive_url)], then
    [re.search(r'id=([a-zA-Z0-9_-]+)', drive_url)]. *)
Module CalibreDrive.

(** [[a-zA-Z0-9_-]] *)
Definition is_id_char (c : ascii) : bool :=
  let n := nat_of_ascii c in
  (Nat.leb 97 n && Nat.leb n 122) || (Nat.leb 65 n && Nat.leb n 90)
  || is_digit c || Nat.eqb n 95 || Nat.eqb n 45.

Definition send_book_email_file_id (drive_url : string) : option string :=
  match re_search (lit_run "/d/" is_id_char) drive_url with
  | Some file_id => Some file_id
  | None => re_search (lit_run "id=" is_id_char) drive_url
  end.

End CalibreDrive.

(** [extract_file_id_from_drive_url] of the Zotero script. *)
Module ZoteroDrive.

(** [[^/]] and [[^&]] *)
Definition not_slash (c : ascii) : bool := negb (Ascii.eqb c "/").
Definition not_amp (c : ascii) : bool := negb (Ascii.eqb c "&").

(** [[?&]id=([^&]+)] anchored at the start. *)
Definition id_param (s : string) : option string :=
  match s with
  | String c s' =>
      if Ascii.eqb c "?" || Ascii.eqb c "&" then lit_run "id=" not_amp s'
      else None
  | EmptyString => None
  end.

Definition extract_file_id_from_drive_url (drive_url : string) : option string :=
  if String.eqb drive_url "" then None
  else
    match re_search (lit_run "/file/d/" not_slash) drive_url with
    | Some g => Some g
    | None =>
        match re_search id_param drive_url with
        | Some g => Some g
        | None => re_search (lit_run "/document/d/" not_slash) drive_url
        end
    end.

End ZoteroDrive.

(** ** Title search of list-zotero-collection.py (find_papers_by_title) *)
Module ZoteroSearch.

Import Zotero.

(** A row of the title query of [search_sqlite_db]. *)
Record search_row : Type := mk_search_row {
  sr_key : string;
  sr_type_name : string;
  sr_title : string
}.

(** The candidate paths of the local database, in the code's order
    ([os.path.expanduser] is left to the [path_exists] oracle). *)
Definition local_paths : list string :=
  ["~/Zotero/zotero.sqlite";
   "~/Library/Application Support/Zotero/zotero.sqlite";
   "~/.zotero/zotero.sqlite";
   "./zotero.sqlite"].

(** [for path in local_paths: if os.path.exists(path): ... break] *)
Fixpoint first_existing (path_exists : string -> bool) (paths : list string)
  : option string :=
  match paths with
  | [] => None
  | p :: rest => if path_exists p then Some p else first_existing path_exists rest
  end.

(** [{'key': key, 'data': {'title': row['title'], 'itemType':
    row['typeName']}}] *)
Definition row_item (row : search_row) : item :=
  mk_item (sr_key row) (sr_type_name row) (Some (sr_title row)).

(** The body of [for row in cur.execute(...)]: the state is
    [(results, seen_keys)]. *)
Definition add_row (st : list item * list string) (row : search_row)
  : list item * list string :=
  let '(results, seen_keys) := st in
  if existsb (String.eqb (sr_key row)) seen_keys then st
  else ((results ++ [row_item row])%list, sr_key row :: seen_keys).

(** [for query in queries: ...]: [execute q] gives the rows the cursor
    yields for the query [q] and, when it raises, the exception raised after
    them; the exception leaves the loop, and the results gathered so far are
    returned. *)
Fixpoint search_queries (execute : string -> list search_row * option string)
  (queries : list string) (st : list item * list string)
  : list item * list string :=
  match queries with
  | [] => st
  | q :: rest =>
      let '(rows, failure) := execute q in
      let st' := fold_left add_row rows st in
      match failure with
      | Some _ => st'
      | None => search_queries execute rest st'
      end
  end.

(** [search_sqlite_db(sqlite_path, queries, ...)]: [execute] is the query
    oracle of the database at [sqlite_path]. *)
Definition search_sqlite_db (execute : string -> list search_row * option string)
  (queries : list string) : list item :=
  fst (search_queries execute queries ([], [])).

(** The loop body of [search_zotero_api]. *)
Definition keep_api_item (st : list item * list string) (it : item)
  : list item * list string :=
  let '(all_results, all_item_keys) := st in
  if negb (note_or_attachment it)
     && negb (existsb (String.eqb (key it)) all_item_keys)
  then ((all_results ++ [it])%list, key it :: all_item_keys)
  else st.

Fixpoint api_queries (zot_items : string -> result (list item))
  (queries : list string) (st : list item * list string)
  : result (list item * list string) :=
  match queries with
  | [] => Ok st
  | q :: rest =>
      match zot_items q with
      | Err e => Err e
      | Ok results => api_queries zot_items rest (fold_left keep_api_item results st)
      end
  end.

(** [search_zotero_api(zot, queries, ...)]: [zot_items q] is the outcome of
    [zot.items(params={'q': q, ...})]; any exception gives [[]]. *)
Definition search_zotero_api (zot_items : string -> result (list item))
  (queries : list string) : list item :=
  match api_queries zot_items queries ([], []) with
  | Ok (all_results, _) => all_results
  | Err _ => []
  end.

Section Search.

(** [os.path.exists] *)
Variable path_exists : string -> bool.
(** The query oracle of the SQLite file at a path. *)
Variable execute : string -> string -> list search_row * option string.
(** [globals().get('google_creds')] is set. *)
Variable google_creds : bool.
(** [get_drive_url_by_filename(google_creds, "zotero.sqlite", ...)]: it
    catches its own exceptions and gives [None]. *)
Variable drive_url_of : string -> option string.
(** [build('drive', 'v3', credentials=google_creds)]: not caught in
    [search_drive_sqlite]. *)
Variable build : result unit.
(** [download_file_from_drive]: the temporary path, [None] on failure. *)
Variable download : string -> option string.
(** [zot.items(params=...)] for a query. *)
Variable zot_items : string -> result (list item).

Definition search_local_sqlite (queries : list string) : list item :=
  match first_existing path_exists local_paths with
  | Some path =>
      let results := search_sqlite_db (execute path) queries in
      if nonempty results then results else []
  | None => []
  end.

Definition search_drive_sqlite (queries : list string) : result (list item) :=
  if negb google_creds then Ok []
  else
    match truthy (drive_url_of "zotero.sqlite") with
    | None => Ok []
    | Some drive_url =>
        match truthy (ZoteroDrive.extract_file_id_from_drive_url drive_url) with
        | None => Ok []
        | Some file_id =>
            match build with
            | Err e => Err e
            | Ok _ =>
                match truthy (download file_id) with
                | Some temp_path =>
                    if path_exists temp_path
                    then Ok (search_sqlite_db (execute temp_path) queries)
                    else Ok []
                | None => Ok []
                end
            end
        end
    end.

(** [find_papers_by_title(zot, title_query, ...)]: [inl q] is a single
    string, [inr qs] a list; an exception of [search_drive_sqlite]
    propagates. *)
Definition find_papers_by_title (title_query : string + list string)
  : result (list item) :=
  let title_queries := match title_query with inl q => [q] | inr qs => qs end in
  let results := search_local_sqlite title_queries in
  if nonempty results then Ok results
  else
    match search_drive_sqlite title_queries with
    | Err e => Err e
    | Ok results =>
        if nonempty results then Ok results
        else
          let results := search_zotero_api zot_items title_queries in
          if nonempty results then Ok results else Ok []
    end.

End Search.

End ZoteroSearch.

(** ** Collections of list-zotero-collection.py *)
Module ZoteroCollections.

Import ZoteroSearch.

(** [{'data': {'name': ..., 'key': ...}}] *)
Record collection : Type := mk_collection {
  coll_name : string;
  coll_key : string
}.


Section Sources.

Variable path_exists : string -> bool.
(** The collection query on the SQLite file at a path. *)
Variable query_of : string -> result (list (string * string)).
Variable google_creds : bool.
Variable build : result unit.
Variable drive_url_of : string -> option string.
Variable download : string -> option string.




End Sources.

Definition collections_html_head : list string :=
  ["<!DOCTYPE html>"; "<html>"; "<head>"; "<title>Zotero Collections</title>";
   "<style>"; "body { font-family: Arial, sans-serif; margin: 40px; }";
   ".collection { margin-bottom: 20px; }"; "h1 { color: #2c3e50; }";
   "</style>"; "</head>"; "<body>"; "<h1>Zotero Collections</h1>"].

Definition collection_html (c : collection) : list string :=
  ["<div class='collection'>";
   "<p><strong>Name:</strong> " ++ coll_name c ++ "</p>";
   "<p><strong>Key:</strong> " ++ coll_key c ++ "</p>";
   "</div>"].

Definition collections_html (collections : list collection) : string :=
  String.concat newline
    (collections_html_head ++ flat_map collection_html collections
     ++ ["</body>"; "</html>"])%list.

(** [display_collections]; progress messages are left out, [pdf_engine] is
    [pdfkit.from_string]. *)
Definition display_collections (pdf_engine : string -> result string)
  (collections : list collection) (fmt : output_format)
  (output_file : option string) : result (list effect) :=
  match collections with
  | [] => Ok [Print "No collections found."]
  | _ :: _ =>
      match fmt with
      | Text =>
          Ok (flat_map (fun c => [Print ("Name: " ++ coll_name c);
                                  Print ("Key: " ++ coll_key c);
                                  Print "---"]) collections)
      | Html =>
          let html_content := collections_html collections in
          match given_file output_file with
          | Some f => Ok [WriteFile f html_content;
                          Print ("HTML output saved to " ++ f)]
          | None => Ok [Print html_content]
          end
      | Pdf =>
          let html_content := collections_html collections in
          let f := match given_file output_file with
                   | Some f => f
                   | None => "zotero_collections.pdf"
                   end in
          match Zotero.generate_pdf_output pdf_engine html_content f with
          | Ok eff => Ok (eff ++ [Print ("PDF output saved to " ++ f)])%list
          | Err e => Err e
          end
      end
  end.

End ZoteroCollections.

(** ** extract_doi of list-zotero-collection.py *)
Module ZoteroDoi.

(** The fields of [item['data']] that [extract_doi] reads; [None] for a
    missing key. *)
Record item_data : Type := mk_item_data {
  data_DOI : option string;
  data_url : option string;
  data_extra : option string
}.

(** The digits of [\d{4,}] and the groups [(?:\.\d+)*] that follow them,
    both greedy. *)
Fixpoint digit_groups (s : string) : string :=
  match s with
  | String c s1 =>
      if is_digit c then String c (digit_groups s1)
      else if Ascii.eqb c "." then
        match s1 with
        | String d s2 =>
            if is_digit d then String c (String d (digit_groups s2)) else ""
        | EmptyString => ""
        end
      else ""
  | EmptyString => ""
  end.

(** [(?:(?![Q&'])\S)], [Q] being the double quote: a non-space character
    other than the double quote, the ampersand and the apostrophe. *)
Definition doi_char (c : ascii) : bool :=
  let n := nat_of_ascii c in
  negb (re_space c) && negb (Nat.eqb n 34) && negb (Nat.eqb n 38)
  && negb (Nat.eqb n 39).

(** [10\.\d{4,}(?:\.\d+)*\/(?:(?![Q&'])\S)+] anchored at the start, group 0.
    A shorter run of digits or fewer groups would leave a digit or a dot
    before the slash, so the greedy choice is the only one that can
    match. *)
Definition doi_at (s : string) : option string :=
  match strip_prefix "10." s with
  | None => None
  | Some r =>
      if Nat.leb 4 (String.length (take_while is_digit r)) then
        let g := digit_groups r in
        match strip_prefix "/" (str_drop (String.length g) r) with
        | Some r' =>
            match take_while doi_char r' with
            | EmptyString => None
            | t => Some ("10." ++ g ++ "/" ++ t)
            end
        | None => None
        end
      else None
  end.

Definition doi_search (s : string) : option string := re_search doi_at s.

(** [url.split('doi.org/')[-1].split('#')[0].split('?')[0]] *)
Definition doi_of_doi_org_url (url : string) : string :=
  hd "" (split_on "?" (hd "" (split_on "#" (last (split_on "doi.org/" url) "")))).

(** [for line in extra.split('\n'): line = line.strip(); if
    line.lower().startswith('doi:'): return line[4:].strip()] *)
Fixpoint doi_line (lines : list string) : option string :=
  match lines with
  | [] => None
  | l :: rest =>
      let line := strip l in
      if is_prefix "doi:" (lower line) then Some (strip (str_drop 4 line))
      else doi_line rest
  end.

(** [extract_doi(item)]: [None] for a falsy item or one without
    ['data']. *)
Definition extract_doi (item : option item_data) : option string :=
  match item with
  | None => None
  | Some data =>
      match truthy (data_DOI data) with
      | Some doi => Some doi
      | None =>
          let from_url :=
            match truthy (data_url data) with
            | Some url =>
                if str_contains url "doi.org/" then Some (doi_of_doi_org_url url)
                else doi_search url
            | None => None
            end in
          match from_url with
          | Some doi => Some doi
          | None =>
              match truthy (data_extra data) with
              | Some extra =>
                  match doi_line (split_on newline extra) with
                  | Some doi => Some doi
                  | None => doi_search extra
                  end
              | None => None
              end
          end
      end
  end.

End ZoteroDoi.

(** ** get_attachment_paths of list-calibre-collection.py *)
Module CalibreAttachments.

Import Calibre.

Section Paths.

(** [str((pathlib.Path(library_path) / book['path'] / filename).resolve()
    .as_posix())] for the book folder and the file name. *)
Variable resolve_posix : string -> string -> string.
(** [get_drive_url_by_filename(google_creds, filename, exact_match=True)]:
    it catches its own exceptions and gives [None]. *)
Variable drive_url_by_filename : string -> option string.
(** The explicit shared-files search: [results[0].get('webViewLink')], [None]
    for no result, or the exception raised by [build] or
    [search_file_in_drive]. *)
Variable shared_search : string -> result (option string).
Variable google_creds : bool.

(** The entry of one [fmt] row: [(format, name)]. *)
Definition attachment_of (b : book) (fmt : string * string) : attachment :=
  let ext := lower (fst fmt) in
  let filename :=
    if ends_with ("." ++ ext) (lower (snd fmt)) then snd fmt
    else snd fmt ++ "." ++ ext in
  let local_path_str := resolve_posix (path b) filename in
  let local_path_str :=
    match str_find (lower local_path_str) (lower "calibre library") with
    | Some idx => str_drop idx local_path_str
    | None => local_path_str
    end in
  let local_path_str :=
    if ends_with ("." ++ ext) (lower local_path_str) then local_path_str
    else local_path_str ++ "." ++ ext in
  let url :=
    if google_creds then
      match truthy (drive_url_by_filename filename) with
      | Some u => Some u
      | None =>
          match shared_search filename with
          | Ok u => truthy u
          | Err _ => None
          end
      end
    else None in
  mk_attachment local_path_str url.

Definition get_attachment_paths (b : book) : list attachment :=
  map (attachment_of b) (formats b).

End Paths.

End CalibreAttachments.

(** The characters of a Drive file id that the three patterns of
    [extract_file_id_from_drive_url] all accept: not [/], [?] or [&]. *)
Definition zid_ok (c : ascii) : bool :=
  ZoteroDrive.not_slash c && negb (Ascii.eqb c "?") && ZoteroDrive.not_amp c.

(** The state of [search_sqlite_db]'s loop: [seen_keys] lists the keys of
    [results], last first, and no key occurs twice. *)
Definition seen_inv (st : list Zotero.item * list string) : Prop :=
  snd st = rev (map Zotero.key (fst st)) /\ NoDup (map Zotero.key (fst st)).

(** The state of [search_zotero_api]'s loop: as above, and no note or
    attachment is kept. *)
Definition api_inv (st : list Zotero.item * list string) : Prop :=
  seen_inv st /\ forall it, In it (fst st) -> Zotero.note_or_attachment it = false.

(** ** Example inputs *)

(** A book used in the concrete runs of the proofs. *)
Definition sample_book (id : nat) (t : string) (ts : string) : Calibre.book :=
  Calibre.mk_book id (Some t) ["A. Author"] ("A. Author/" ++ t) None None None
    None None [("PDF", t ++ " - A. Author")] ts.

(** Drive files of 15 MiB and 10 MiB, for the Calibre attachment run. *)
Definition example_file_id (url : string) : option string :=
  if String.eqb url "https://drive.google.com/file/d/A/view" then Some "A"
  else if String.eqb url "https://drive.google.com/file/d/B/view" then Some "B"
  else None.

Definition example_metadata (file_id : string) : result (string * nat) :=
  if String.eqb file_id "A" then Ok ("a.pdf", 15 * 1024 * 1024)
  else Ok ("b.pdf", 10 * 1024 * 1024).

Definition example_download (file_id : string) : result string :=
  Ok ("%PDF-" ++ file_id).

Definition example_attachments : list Calibre.attachment :=
  [Calibre.mk_attachment "A. Author/a.pdf" (Some "https://drive.google.com/file/d/A/view");
   Calibre.mk_attachment "A. Author/b.pdf" (Some "https://drive.google.com/file/d/B/view")].


Definition example_tags (tag_table : list (nat * list string)) (id : nat) : list string :=
  match find (fun p => Nat.eqb (fst p) id) tag_table with
  | Some (_, tags) => tags
  | None => []
  end.

Definition example_title (b : Calibre.book) : string :=
  match Calibre.title b with Some t => t | None => "" end.

(** Book 3 raises while it is formatted. *)
Definition example_book_text (b : Calibre.book) : result string :=
  if Nat.eqb (Calibre.book_id b) 3 then Err "KeyError: 'authors'"
  else Ok ("Title: " ++ example_title b).

Definition example_book_html (b : Calibre.book) : result string :=
  if Nat.eqb (Calibre.book_id b) 3 then Err "KeyError: 'authors'"
  else Ok ("<h3>" ++ example_title b ++ "</h3>").

Definition example_item (k t : string) : Zotero.item :=
  Zotero.mk_item k "journalArticle" (Some t).

(** Item K3 raises while it is formatted. *)
Definition example_item_text (it : Zotero.item) : result string :=
  if String.eqb (Zotero.key it) "K3" then Err "KeyError: 'data'"
  else Ok ("Title: " ++ Zotero.py_str_opt (Zotero.item_title it)).

Definition example_item_html (it : Zotero.item) : result string :=
  if String.eqb (Zotero.key it) "K3" then Err "KeyError: 'data'"
  else Ok ("<h3>" ++ Zotero.py_str_opt (Zotero.item_title it) ++ "</h3>").

Definition example_pdf (html : string) : result string := Ok ("%PDF-1.4 " ++ html).

Definition example_books : list Calibre.book :=
  [sample_book 1 "Algebra" "2024-05-05"; sample_book 2 "Topology" "2024-04-04";
   sample_book 3 "Analysis" "2024-03-03"; sample_book 4 "Geometry" "2024-02-02";
   sample_book 5 "Graphs" "2024-01-01"].

Definition example_items : list Zotero.item :=
  [example_item "K1" "Paper one"; example_item "K2" "Paper two";
   example_item "K3" "Paper three"; example_item "K4" "Paper four";
   example_item "K5" "Paper five"].

Definition example_library : string := "/home/user/Calibre Library".

(** One paper with one Drive attachment of 3 bytes. *)
Definition example_zotero_paths (_ : Zotero.item) : list (string * option string) :=
  [("storage/paper.pdf", Some "https://drive.google.com/file/d/Z/view")].

Definition example_zotero_download (_ : string) : option (string * nat) :=
  Some ("/tmp/paper.pdf", 3).

Definition example_zotero_outcome : bool * option Zotero.message :=
  Zotero.send_paper_by_email (fun _ => Some "%PDF-Z") (fun p => p)
    example_zotero_paths (fun _ => Some "Z") example_zotero_download
    (fun _ => ["A. Author"]) (fun _ => None)
    (Zotero.ByTitle [example_item "K1" "Paper one"]) 1 true None None
    ["x@example.org"] (fun _ => Ok tt).

Definition example_zotero_message : Zotero.message :=
  match snd example_zotero_outcome with
  | Some m => m
  | None => Zotero.mk_message [] "" "" []
  end.

(** * Proofs *)

(** ** Reassembly by index *)

Lemma collect_completed_map (on_error : nat -> string -> string)
  (completed : list (nat * result string)) :
  collect_completed on_error completed =
  map (fun '(idx, r) => collect_one on_error idx r) completed.
Proof.
  unfold collect_completed.
  assert (Hgen : forall acc,
    fold_left (fun acc '(idx, r) => (acc ++ [collect_one on_error idx r])%list)
      completed acc =
    (acc ++ map (fun '(idx, r) => collect_one on_error idx r) completed)%list).
  { induction completed as [|[i r] rest IH]; intro acc; simpl.
    - now rewrite app_nil_r.
    - rewrite IH, <- app_assoc. reflexivity. }
  apply Hgen.
Qed.

Lemma insert_by_index_perm (p : nat * string) (l : list (nat * string)) :
  Permutation (insert_by_index p l) (p :: l).
Proof.
  induction l as [|q l IH]; simpl; [reflexivity|].
  destruct (Nat.ltb (fst p) (fst q)); [reflexivity|].
  rewrite IH. apply perm_swap.
Qed.

Lemma sort_by_index_perm (l : list (nat * string)) :
  Permutation (sort_by_index l) l.
Proof.
  unfold sort_by_index.
  assert (Hgen : forall acc,
    Permutation (fold_left (fun acc p => insert_by_index p acc) l acc)
      (l ++ acc)%list).
  { induction l as [|p l IH]; intro acc; simpl; [reflexivity|].
    rewrite IH, insert_by_index_perm. symmetry. apply Permutation_middle. }
  rewrite Hgen, app_nil_r. reflexivity.
Qed.

Lemma insert_by_index_hd (q p : nat * string) (l : list (nat * string)) :
  HdRel key_le q l -> key_le q p -> HdRel key_le q (insert_by_index p l).
Proof.
  intros Hhd Hqp. destruct l as [|r l]; simpl.
  - constructor. exact Hqp.
  - destruct (Nat.ltb (fst p) (fst r)); constructor; [exact Hqp|].
    now inversion Hhd.
Qed.

Lemma insert_by_index_sorted (p : nat * string) (l : list (nat * string)) :
  Sorted key_le l -> Sorted key_le (insert_by_index p l).
Proof.
  induction l as [|q l IH]; intro Hs; simpl.
  - repeat constructor.
  - destruct (Nat.ltb (fst p) (fst q)) eqn:Hlt.
    + apply Nat.ltb_lt in Hlt. constructor; [exact Hs|].
      constructor. unfold key_le. lia.
    + apply Nat.ltb_ge in Hlt. inversion Hs; subst.
      constructor; [now apply IH|].
      apply insert_by_index_hd; [assumption|]. unfold key_le. lia.
Qed.

Lemma sort_by_index_sorted (l : list (nat * string)) :
  Sorted key_le (sort_by_index l).
Proof.
  unfold sort_by_index.
  assert (Hgen : forall acc, Sorted key_le acc ->
    Sorted key_le (fold_left (fun acc p => insert_by_index p acc) l acc)).
  { induction l as [|p l IH]; intros acc Hacc; simpl; [exact Hacc|].
    apply IH, insert_by_index_sorted, Hacc. }
  apply Hgen. constructor.
Qed.

Lemma key_le_trans : Relations_1.Transitive key_le.
Proof. unfold Relations_1.Transitive, key_le. intros; lia. Qed.

(** Two index-sorted permutations of each other with distinct indices are
    equal. *)
Lemma sorted_perm_unique (l1 l2 : list (nat * string)) :
  StronglySorted key_le l1 -> StronglySorted key_le l2 ->
  Permutation l1 l2 -> NoDup (map fst l1) -> l1 = l2.
Proof.
  revert l2. induction l1 as [|a l1 IH]; intros l2 S1 S2 HP HN.
  - symmetry. now apply Permutation_nil.
  - destruct l2 as [|b l2].
    + exfalso. apply Permutation_sym, Permutation_nil in HP. discriminate.
    + apply StronglySorted_inv in S1 as [S1 F1].
      apply StronglySorted_inv in S2 as [S2 F2].
      simpl in HN. inversion HN as [|x y Hnotin HN']; subst.
      assert (Hdec : {a = b} + {a <> b})
        by (decide equality; [apply string_dec | apply Nat.eq_dec]).
      destruct Hdec as [->|Hab].
      * f_equal. apply IH; auto. eapply Permutation_cons_inv; eauto.
      * exfalso.
        assert (Ha2 : In a l2).
        { assert (In a (b :: l2)) as [H|H] by (eapply Permutation_in; eauto; left; auto).
          - congruence.
          - exact H. }
        assert (Hb1 : In b l1).
        { assert (In b (a :: l1)) as [H|H]
            by (eapply Permutation_in; [symmetry; eauto | left; auto]).
          - congruence.
          - exact H. }
        rewrite Forall_forall in F1, F2.
        specialize (F1 b Hb1). specialize (F2 a Ha2). unfold key_le in *.
        apply Hnotin. replace (fst a) with (fst b) by lia.
        now apply in_map.
Qed.

Lemma keys_seq_sorted (l : list (nat * string)) (k n : nat) :
  map fst l = seq k n -> Sorted key_le l.
Proof.
  revert k n. induction l as [|p l IH]; intros k n Hk; [constructor|].
  destruct n as [|n]; simpl in Hk; [discriminate|].
  injection Hk as Hp Hl. constructor.
  - eapply IH; eauto.
  - destruct l as [|q l]; constructor.
    destruct n as [|n]; simpl in Hl; [discriminate|].
    injection Hl as Hq _. unfold key_le. lia.
Qed.

Lemma keyed_keys {A : Type} (h : nat * A -> nat * string)
  (Hh : forall i x, fst (h (i, x)) = i) (xs : list A) (k : nat) :
  map fst (map h (combine (seq k (List.length xs)) xs)) = seq k (List.length xs).
Proof.
  revert k. induction xs as [|x xs IH]; intro k; simpl; [reflexivity|].
  now rewrite Hh, IH.
Qed.

(** Whatever order the futures complete in, [run_pool] yields the
    fragments in the order of [enumerate(records)]. *)
Lemma run_pool_completion_order {A : Type} (task : nat -> A -> result string)
  (on_error : nat -> string -> string) (xs : list A)
  (completion : list (nat * A)) :
  Permutation completion (enumerate xs) ->
  run_pool task on_error completion =
  map (fun '(i, x) => snd (collect_one on_error i (task i x))) (enumerate xs).
Proof.
  intro HP. unfold run_pool, reassemble.
  rewrite collect_completed_map, map_map.
  set (g := fun (p : nat * A) => let '(i, x) := p in
              collect_one on_error i (task i x)).
  assert (Hg : forall i x, fst (g (i, x)) = i)
    by (intros i x; simpl; destruct (task i x); reflexivity).
  replace (map _ completion) with (map g completion)
    by (apply map_ext; intros [i x]; reflexivity).
  assert (Hkeys : map fst (map g (enumerate xs)) = seq 0 (List.length xs))
    by (apply keyed_keys, Hg).
  assert (Hperm : Permutation (sort_by_index (map g completion))
                    (map g (enumerate xs)))
    by (rewrite sort_by_index_perm; now apply Permutation_map).
  assert (Hc : sort_by_index (map g completion) = map g (enumerate xs)).
  { apply sorted_perm_unique.
    - apply Sorted_StronglySorted; [apply key_le_trans|].
      apply sort_by_index_sorted.
    - apply Sorted_StronglySorted; [apply key_le_trans|].
      eapply keys_seq_sorted; exact Hkeys.
    - exact Hperm.
    - apply Permutation_NoDup with (map fst (map g (enumerate xs))).
      + symmetry. now apply Permutation_map.
      + rewrite Hkeys. apply seq_NoDup. }
  rewrite Hc, map_map. apply map_ext. intros [i x]. reflexivity.
Qed.

Section Rendering.

Variables format_book_text format_book_html : Calibre.book -> result string.
Variables format_item_text format_item_html : Zotero.item -> result string.
Variable collection_name : option string.
Variable report_title : string.
Variables html_header search_container search_script : list string.
Variable pdf_engine : string -> result string.

Lemma calibre_text_order books completion :
  Permutation completion (enumerate books) ->
  Calibre.generate_text_output format_book_text report_title completion =
  String.concat "
" (Calibre.text_header report_title ++
    map (fun '(i, b) => snd (collect_one Calibre.text_result_error i
                               (Calibre.format_single_book_text format_book_text i b)))
      (enumerate books))%list.
Proof.
  intro HP. unfold Calibre.generate_text_output.
  now rewrite (run_pool_completion_order _ _ books completion HP).
Qed.

Lemma calibre_html_order books completion :
  Permutation completion (enumerate books) ->
  Calibre.generate_books_html format_book_html completion =
  map (fun '(i, b) => snd (collect_one Calibre.html_result_error i
                             (Calibre.format_single_book format_book_html i b)))
    (enumerate books).
Proof.
  intro HP. unfold Calibre.generate_books_html.
  now rewrite (run_pool_completion_order _ _ books completion HP).
Qed.

Lemma zotero_text_order items completion :
  Permutation completion (enumerate items) ->
  Zotero.generate_text_output format_item_text collection_name report_title
    completion =
  String.concat "
" ([report_title; repeat_str "=" (String.length report_title); ""] ++
    map (fun '(i, it) => snd (collect_one Zotero.text_result_error i
                 (Zotero.format_single_item_text format_item_text collection_name i it)))
      (enumerate items))%list.
Proof.
  intro HP. unfold Zotero.generate_text_output.
  now rewrite (run_pool_completion_order _ _ items completion HP).
Qed.

Lemma zotero_html_order items completion :
  Permutation completion (enumerate items) ->
  Zotero.generate_items_html format_item_html collection_name completion =
  map (fun '(i, it) => snd (collect_one Zotero.html_result_error i
             (Zotero.format_single_item format_item_html collection_name i it)))
    (enumerate items).
Proof.
  intro HP. unfold Zotero.generate_items_html.
  now rewrite (run_pool_completion_order _ _ items completion HP).
Qed.

Lemma calibre_display_order books completion fmt output_file :
  Permutation completion (enumerate books) ->
  Calibre.display_books format_book_text format_book_html report_title
    html_header search_container search_script pdf_engine
    books fmt output_file completion =
  Calibre.display_books format_book_text format_book_html report_title
    html_header search_container search_script pdf_engine
    books fmt output_file (enumerate books).
Proof.
  intro HP. unfold Calibre.display_books, Calibre.generate_html_output.
  rewrite (calibre_text_order books completion HP),
          (calibre_text_order books (enumerate books) (Permutation_refl _)),
          (calibre_html_order books completion HP),
          (calibre_html_order books (enumerate books) (Permutation_refl _)).
  reflexivity.
Qed.

Lemma zotero_display_order items completion fmt output_file :
  Permutation completion (enumerate items) ->
  Zotero.display_items format_item_text format_item_html collection_name
    report_title html_header search_container search_script pdf_engine
    items fmt output_file completion =
  Zotero.display_items format_item_text format_item_html collection_name
    report_title html_header search_container search_script pdf_engine
    items fmt output_file (enumerate items).
Proof.
  intro HP. unfold Zotero.display_items, Zotero.generate_html_output.
  rewrite (zotero_text_order items completion HP),
          (zotero_text_order items (enumerate items) (Permutation_refl _)),
          (zotero_html_order items completion HP),
          (zotero_html_order items (enumerate items) (Permutation_refl _)).
  reflexivity.
Qed.

(** C1: whatever order the per-record formatting futures complete in, the
    report lists the fragment of record [i] at position [i] of the fetch
    order: the text report, the HTML fragments, and everything
    [display_books] / [display_items] emits in the three formats (text,
    HTML, and the PDF made from the HTML) are those of the completion order
    equal to the submission order. *)
Theorem report_order_is_fetch_order :
  (forall books completion,
     Permutation completion (enumerate books) ->
     Calibre.generate_text_output format_book_text report_title completion =
     String.concat "
" (Calibre.text_header report_title ++
       map (fun '(i, b) => snd (collect_one Calibre.text_result_error i
                 (Calibre.format_single_book_text format_book_text i b)))
         (enumerate books))%list
     /\ Calibre.generate_books_html format_book_html completion =
        map (fun '(i, b) => snd (collect_one Calibre.html_result_error i
                  (Calibre.format_single_book format_book_html i b)))
          (enumerate books)
     /\ forall fmt output_file,
          Calibre.display_books format_book_text format_book_html report_title
            html_header search_container search_script pdf_engine
            books fmt output_file completion =
          Calibre.display_books format_book_text format_book_html report_title
            html_header search_container search_script pdf_engine
            books fmt output_file (enumerate books))
  /\
  (forall items completion,
     Permutation completion (enumerate items) ->
     Zotero.generate_text_output format_item_text collection_name report_title
       completion =
     String.concat "
" ([report_title; repeat_str "=" (String.length report_title); ""] ++
       map (fun '(i, it) => snd (collect_one Zotero.text_result_error i
                (Zotero.format_single_item_text format_item_text collection_name i it)))
         (enumerate items))%list
     /\ Zotero.generate_items_html format_item_html collection_name completion =
        map (fun '(i, it) => snd (collect_one Zotero.html_result_error i
                  (Zotero.format_single_item format_item_html collection_name i it)))
          (enumerate items)
     /\ forall fmt output_file,
          Zotero.display_items format_item_text format_item_html collection_name
            report_title html_header search_container search_script pdf_engine
            items fmt output_file completion =
          Zotero.display_items format_item_text format_item_html collection_name
            report_title html_header search_container search_script pdf_engine
            items fmt output_file (enumerate items)).
Proof.
  split; intros xs completion HP; (split; [|split]).
  - now apply calibre_text_order.
  - now apply calibre_html_order.
  - intros; now apply calibre_display_order.
  - now apply zotero_text_order.
  - now apply zotero_html_order.
  - intros; now apply zotero_display_order.
Qed.

Lemma calibre_exit_zero books completion fmt output_file :
  (forall h, exists pdf, pdf_engine h = Ok pdf) ->
  exit_code (Calibre.display_books format_book_text format_book_html
    report_title html_header search_container search_script pdf_engine
    books fmt output_file completion) = 0.
Proof.
  intro Hpdf. unfold Calibre.display_books.
  destruct books; [reflexivity|].
  destruct fmt.
  - destruct (given_file output_file); reflexivity.
  - destruct (given_file output_file); reflexivity.
  - unfold Calibre.generate_pdf_output.
    match goal with |- context [pdf_engine ?h] =>
      destruct (Hpdf h) as [pdf Hp]; rewrite Hp end.
    reflexivity.
Qed.

Lemma zotero_exit_zero items completion fmt output_file :
  (forall h, exists pdf, pdf_engine h = Ok pdf) ->
  exit_code (Zotero.display_items format_item_text format_item_html
    collection_name report_title html_header search_container search_script
    pdf_engine items fmt output_file completion) = 0.
Proof.
  intro Hpdf. unfold Zotero.display_items.
  destruct items; [reflexivity|].
  destruct fmt.
  - destruct (given_file output_file); reflexivity.
  - destruct (given_file output_file); reflexivity.
  - unfold Zotero.generate_pdf_output.
    match goal with |- context [pdf_engine ?h] =>
      destruct (Hpdf h) as [pdf Hp]; rewrite Hp end.
    reflexivity.
Qed.

(** C7: when formatting a record raises, its fragment is the inline error
    placeholder ("Error formatting book/item n: ..."), at the record's own
    position, while every other record gets its normal fragment; this holds
    for the text and HTML renderings of both scripts and for every
    completion order, and the display still ends with exit code 0 (given a
    working PDF engine for the PDF format). *)
Theorem format_failure_is_placeholder :
  forall books items completion_b completion_i,
  Permutation completion_b (enumerate books) ->
  Permutation completion_i (enumerate items) ->
  Calibre.generate_books_html format_book_html completion_b =
  map (fun '(i, b) =>
         match format_book_html b with
         | Ok content => "<div class='item-number'>Book #" ++ str_of_nat (i + 1)
                         ++ "</div>" ++ "
" ++ content
         | Err e => "<div class='item-error'>Error formatting book "
                    ++ str_of_nat (i + 1) ++ ": " ++ e ++ "</div>"
         end) (enumerate books)
  /\ Calibre.generate_text_output format_book_text report_title completion_b =
     String.concat "
" (app (Calibre.text_header report_title)
       (map (fun '(i, b) =>
              match format_book_text b with
              | Ok content => "Book #" ++ str_of_nat (i + 1) ++ "
" ++ content
                              ++ "
---"
              | Err e => "Error formatting book " ++ str_of_nat (i + 1) ++ ": "
                         ++ e ++ "
---"
              end) (enumerate books)))
  /\ Zotero.generate_items_html format_item_html collection_name completion_i =
     map (fun '(i, it) =>
            match format_item_html it with
            | Ok content => "<div class='item-number'>" ++ Zotero.py_str_opt collection_name
                            ++ " #" ++ str_of_nat (i + 1) ++ "</div>" ++ "
"
                            ++ content
            | Err e => "<div class='item-error'>Error formatting item "
                       ++ str_of_nat (i + 1) ++ ": " ++ e ++ "</div>"
            end) (enumerate items)
  /\ Zotero.generate_text_output format_item_text collection_name report_title
       completion_i =
     String.concat "
" (app [report_title; repeat_str "=" (String.length report_title); ""]
       (map (fun '(i, it) =>
              match format_item_text it with
              | Ok content => Zotero.py_str_opt collection_name ++ " #" ++ str_of_nat (i + 1)
                              ++ "
" ++ content ++ "
---"
              | Err e => "Error formatting item " ++ str_of_nat (i + 1) ++ ": "
                         ++ e ++ "
---"
              end) (enumerate items)))
  /\ ((forall h, exists pdf, pdf_engine h = Ok pdf) ->
      forall fmt output_file,
        exit_code (Calibre.display_books format_book_text format_book_html
          report_title html_header search_container search_script pdf_engine
          books fmt output_file completion_b) = 0
        /\ exit_code (Zotero.display_items format_item_text format_item_html
          collection_name report_title html_header search_container
          search_script pdf_engine items fmt output_file completion_i) = 0).
Proof.
  intros books items cb ci HPb HPi.
  rewrite (calibre_html_order books cb HPb), (calibre_text_order books cb HPb),
          (zotero_html_order items ci HPi), (zotero_text_order items ci HPi).
  repeat split.
  - apply map_ext. intros [i b]. unfold Calibre.format_single_book.
    destruct (format_book_html b); reflexivity.
  - do 2 f_equal. apply map_ext. intros [i b].
    unfold Calibre.format_single_book_text.
    destruct (format_book_text b); reflexivity.
  - apply map_ext. intros [i it]. unfold Zotero.format_single_item.
    destruct (format_item_html it); reflexivity.
  - do 2 f_equal. apply map_ext. intros [i it].
    unfold Zotero.format_single_item_text.
    destruct (format_item_text it); reflexivity.
  - now apply calibre_exit_zero.
  - now apply zotero_exit_zero.
Qed.

End Rendering.

(** ** Empty listings *)

(** C10: with no records, [display_books] prints "No books found." and
    [display_items] prints "No items found.", and nothing else happens: no
    report is produced and no file is written, whatever the output format,
    the output file, the formatters and the PDF engine. *)
Theorem empty_listing_prints_message_only :
  (forall ftext fhtml report_title html_header search_container search_script
          pdf_engine fmt output_file completion,
     Calibre.display_books ftext fhtml report_title html_header
       search_container search_script pdf_engine [] fmt output_file completion
     = Ok [Print "No books found."])
  /\ (forall ftext fhtml collection_name report_title html_header
             search_container search_script pdf_engine fmt output_file
             completion,
     Zotero.display_items ftext fhtml collection_name report_title html_header
       search_container search_script pdf_engine [] fmt output_file completion
     = Ok [Print "No items found."]).
Proof. split; intros; reflexivity. Qed.

(** ** Source fallback chains *)

Lemma nonempty_false {A : Type} (l : list A) : Zotero.nonempty l = false -> l = [].
Proof. destruct l; simpl; congruence. Qed.

Lemma nonempty_true {A : Type} (l : list A) : Zotero.nonempty l = true -> l <> [].
Proof. destruct l; simpl; congruence. Qed.

Lemma zotero_get_items_chain google_creds local drive api :
  let '(items, consulted) := Zotero.get_items google_creds local drive api in
  let y := zotero_yield google_creds local drive api in
  (exists rest, zotero_priority google_creds = (consulted ++ rest)%list)
  /\ items = y (last consulted RemoteApi)
  /\ Forall (fun s => y s = []) (removelast consulted)
  /\ (last consulted RemoteApi <> RemoteApi -> items <> []).
Proof.
  unfold Zotero.get_items.
  destruct (Zotero.nonempty (Zotero.get_items_from_local_db local)) eqn:H1.
  - cbn zeta. repeat split.
    + exists ((if google_creds then [DriveFile] else []) ++ [RemoteApi])%list.
      reflexivity.
    + constructor.
    + intros _. now apply nonempty_true.
  - apply nonempty_false in H1.
    destruct google_creds.
    + destruct (Zotero.nonempty (Zotero.get_items_from_gdrive true drive)) eqn:H2.
      * cbn zeta. repeat split.
        -- exists [RemoteApi]. reflexivity.
        -- simpl. constructor; [exact H1 | constructor].
        -- intros _. now apply nonempty_true.
      * apply nonempty_false in H2. cbn zeta. repeat split.
        -- exists []. reflexivity.
        -- simpl. repeat constructor; assumption.
        -- simpl. intro H; now elim H.
    + cbn zeta. repeat split.
      * exists []. reflexivity.
      * simpl. repeat constructor; assumption.
      * simpl. intro H; now elim H.
Qed.

Lemma calibre_local_first library_path path_exists google_creds drive catalog :
  path_exists (Calibre.path_join library_path "metadata.db") = true ->
  calibre_locate_books library_path path_exists google_creds drive catalog =
  (Ok (catalog (Calibre.LocalDb (Calibre.path_join library_path "metadata.db"))),
   [LocalFile]).
Proof.
  intro H. unfold calibre_locate_books, Calibre.connect_to_calibre_db.
  cbv zeta. now rewrite H.
Qed.

Lemma calibre_local_missing library_path path_exists google_creds drive catalog :
  path_exists (Calibre.path_join library_path "metadata.db") = false ->
  let '(r, consulted) :=
    calibre_locate_books library_path path_exists google_creds drive catalog in
  consulted = LocalFile :: (if google_creds then [DriveFile] else [])
  /\ (forall bs, r = Ok bs -> exists file_id, bs = catalog (Calibre.DriveDb file_id)).
Proof.
  intro H. unfold calibre_locate_books, Calibre.connect_to_calibre_db.
  cbv zeta. rewrite H.
  destruct google_creds;
    [destruct (Calibre.drive_failure drive);
     [|destruct (Calibre.first_folder_copy (Calibre.calibre_folders drive));
       [|destruct (Calibre.anywhere_copy drive)]]|];
    (split; [reflexivity|]); intros bs Hbs; try discriminate;
    injection Hbs as <-; eexists; reflexivity.
Qed.

(** C2 fails in the Calibre script: its local metadata.db exists but holds
    no book, while the Drive copy holds one.  The Drive copy is the first
    source with a record, yet the run returns the empty local result and
    never consults Drive. *)
Lemma calibre_empty_local_db_hides_drive_books :
  let b := sample_book 1 "Algebra" "2024-01-01" in
  let drive := Calibre.mk_drive_view [("Calibre Library", Some "f1")] None None in
  let catalog := fun db => match db with
                           | Calibre.LocalDb _ => []
                           | Calibre.DriveDb _ => [b]
                           end in
  calibre_locate_books "/home/u/Calibre Library" (fun _ => true) true drive catalog
    = (Ok [], [LocalFile])
  /\ catalog (Calibre.DriveDb "f1") = [b]
  /\ fst (calibre_locate_books "/home/u/Calibre Library" (fun _ => true) true
            drive catalog) <> Ok (catalog (Calibre.DriveDb "f1")).
Proof. repeat split; vm_compute; congruence. Qed.

(** C2, as amended.  Zotero's [get_items] consults its sources in the
    order local database, Drive copy (only with credentials), online API;
    it stops at the first one that yields an item, every source consulted
    before it yielded nothing, and the result is exactly what the last
    consulted source yields (the API's possibly empty list when no earlier
    source yields).  Calibre's [connect_to_calibre_db] decides by the
    presence of the local metadata.db, not by its record count: when it
    exists its books are returned and Drive is never consulted; when it is
    missing Drive is consulted (with credentials) and the books, if any,
    come from the Drive copy. *)
Theorem source_priority_first_hit :
  (forall google_creds local drive api,
     let '(items, consulted) := Zotero.get_items google_creds local drive api in
     let y := zotero_yield google_creds local drive api in
     (exists rest, zotero_priority google_creds = (consulted ++ rest)%list)
     /\ items = y (last consulted RemoteApi)
     /\ Forall (fun s => y s = []) (removelast consulted)
     /\ (last consulted RemoteApi <> RemoteApi -> items <> []))
  /\ (forall library_path path_exists google_creds drive catalog,
       path_exists (Calibre.path_join library_path "metadata.db") = true ->
       calibre_locate_books library_path path_exists google_creds drive catalog =
       (Ok (catalog (Calibre.LocalDb (Calibre.path_join library_path "metadata.db"))),
        [LocalFile]))
  /\ (forall library_path path_exists google_creds drive catalog,
       path_exists (Calibre.path_join library_path "metadata.db") = false ->
       let '(r, consulted) :=
         calibre_locate_books library_path path_exists google_creds drive catalog in
       consulted = LocalFile :: (if google_creds then [DriveFile] else [])
       /\ (forall bs, r = Ok bs ->
             exists file_id, bs = catalog (Calibre.DriveDb file_id))).
Proof.
  split; [|split].
  - intros. apply zotero_get_items_chain.
  - intros. now apply calibre_local_first.
  - intros. now apply calibre_local_missing.
Qed.

(** C5 fails in the Zotero script: no local database, no Drive
    credentials and the online API raising a network error.  No source is
    available, yet [get_items] does not fail: it returns an empty list,
    which [display_items] reports as "No items found." with exit code 0. *)
Lemma zotero_no_source_is_not_an_error :
  Zotero.get_items false None (Ok None) (Err "ConnectionError: network unreachable")
    = ([], [LocalFile; RemoteApi])
  /\ Zotero.display_items (fun _ => Ok "") (fun _ => Ok "") None "Zotero Items"
       [] [] [] (fun h => Ok h)
       (fst (Zotero.get_items false None (Ok None)
               (Err "ConnectionError: network unreachable")))
       Text None []
     = Ok [Print "No items found."].
Proof. split; reflexivity. Qed.

(** C5, as amended.  In Zotero's [get_items] a failing source counts
    exactly as a source with no items: a failing local query as no local
    database, a failing Drive step as no Drive copy, a failing API call as
    an empty API answer.  When no source yields an item the result is the
    empty list, not an error, and [display_items] prints "No items found."
    and returns normally, so the run exits with 0, for every format and
    output file.  Calibre's [connect_to_calibre_db], when the local
    metadata.db is missing, fails with "Calibre database not found at
    <db_path> and not found in Google Drive." when there are no Drive
    credentials or Drive has no metadata.db (the fallback lookup
    [get_drive_url_by_filename] catches its own exceptions, so its failure
    counts as no copy), and turns an exception of one of its own Drive
    calls into the FileNotFoundError "Could not find or download Calibre
    database: <error>". *)
Theorem source_failures_handling :
  (forall google_creds e drive api,
     Zotero.get_items google_creds (Some (Err e)) drive api
     = Zotero.get_items google_creds None drive api)
  /\ (forall google_creds e local api,
     Zotero.get_items google_creds local (Err e) api
     = Zotero.get_items google_creds local (Ok None) api)
  /\ (forall google_creds e local drive,
     Zotero.get_items google_creds local drive (Err e)
     = Zotero.get_items google_creds local drive (Ok []))
  /\ (forall google_creds local drive api,
     Zotero.get_items_from_local_db local = [] ->
     Zotero.get_items_from_gdrive google_creds drive = [] ->
     Zotero.items_from_api api = [] ->
     fst (Zotero.get_items google_creds local drive api) = []
     /\ forall format_item_text format_item_html collection_name report_title
               html_header search_container search_script pdf_engine
               fmt output_file completion,
        Zotero.display_items format_item_text format_item_html collection_name
          report_title html_header search_container search_script pdf_engine
          (fst (Zotero.get_items google_creds local drive api)) fmt output_file
          completion = Ok [Print "No items found."]
        /\ exit_code (Zotero.display_items format_item_text format_item_html
             collection_name report_title html_header search_container
             search_script pdf_engine
             (fst (Zotero.get_items google_creds local drive api)) fmt
             output_file completion) = 0)
  /\ (forall library_path path_exists drive,
       let db_path := Calibre.path_join library_path "metadata.db" in
       path_exists db_path = false ->
       Calibre.connect_to_calibre_db library_path path_exists false drive
         = (Err (Calibre.not_found_message db_path), [LocalFile])
       /\ (Calibre.drive_failure drive = None ->
           Calibre.first_folder_copy (Calibre.calibre_folders drive) = None ->
           Calibre.anywhere_copy drive = None ->
           Calibre.connect_to_calibre_db library_path path_exists true drive
             = (Err (Calibre.not_found_message db_path), [LocalFile; DriveFile]))
       /\ (forall e, Calibre.drive_failure drive = Some e ->
           Calibre.connect_to_calibre_db library_path path_exists true drive
             = (Err ("Could not find or download Calibre database: " ++ e),
                [LocalFile; DriveFile]))).
Proof.
  split; [|split; [|split; [|split]]].
  - intros [|] e [|] api; reflexivity.
  - intros [|] e local api; reflexivity.
  - intros [|] e local drive; reflexivity.
  - intros google_creds local drive api Hl Hd Ha.
    assert (E : fst (Zotero.get_items google_creds local drive api) = []).
    { unfold Zotero.get_items. rewrite Hl.
      destruct google_creds; cbn -[Zotero.get_items_from_gdrive Zotero.items_from_api];
        [rewrite Hd|]; cbn -[Zotero.items_from_api]; exact Ha. }
    split; [exact E|]. intros. rewrite E. split; reflexivity.
  - intros library_path path_exists drive db_path H.
    unfold Calibre.connect_to_calibre_db. fold db_path. cbv zeta. rewrite H.
    repeat split.
    + intros H1 H2 H3. now rewrite H1, H2, H3.
    + intros e H1. now rewrite H1.
Qed.

(** ** Sending to several recipients *)

Lemma send_to_recipients_pairs (send : Calibre.book -> string -> result unit)
  (b : Calibre.book) (recipients : list string)
  (attempts : list (Calibre.book * string)) :
  Calibre.send_to_recipients send b recipients attempts =
  send_pairs send (map (fun r => (b, r)) recipients) attempts.
Proof.
  revert attempts.
  induction recipients as [|r rest IH]; intro attempts; simpl; [reflexivity|].
  destruct (send b r); [apply IH | reflexivity].
Qed.

Lemma send_pairs_app {B : Type} (send : B -> string -> result unit)
  (l1 l2 : list (B * string)) (attempts : list (B * string)) :
  send_pairs send (l1 ++ l2)%list attempts =
  match send_pairs send l1 attempts with
  | (attempts', Ok _) => send_pairs send l2 attempts'
  | (attempts', Err e) => (attempts', Err e)
  end.
Proof.
  revert attempts.
  induction l1 as [|[b r] rest IH]; intro attempts; simpl; [reflexivity|].
  destruct (send b r); [apply IH | reflexivity].
Qed.

Lemma send_selected_pairs (send : Calibre.book -> string -> result unit)
  (selected : list Calibre.book) (recipients : list string)
  (attempts : list (Calibre.book * string)) :
  Calibre.send_selected send selected recipients attempts =
  send_pairs send (list_prod selected recipients) attempts.
Proof.
  revert attempts.
  induction selected as [|b rest IH]; intro attempts; simpl; [reflexivity|].
  rewrite send_pairs_app, send_to_recipients_pairs.
  destruct (send_pairs send (map (fun y => (b, y)) recipients) attempts)
    as [a [[]|e]]; [apply IH | reflexivity].
Qed.

Lemma send_pairs_outcome {B : Type} (send : B -> string -> result unit)
  (pairs attempts : list (B * string)) :
  let '(attempts', outcome) := send_pairs send pairs attempts in
  exists made, attempts' = (attempts ++ made)%list
               /\ sequential_outcome send pairs made outcome.
Proof.
  revert attempts.
  induction pairs as [|[b r] rest IH]; intro attempts; simpl.
  - exists []. split; [now rewrite app_nil_r|].
    left. repeat split. constructor.
  - destruct (send b r) as [[]|e] eqn:Hs.
    + specialize (IH (attempts ++ [(b, r)])%list).
      destruct (send_pairs send rest (attempts ++ [(b, r)])%list)
        as [a' o] eqn:Hrun.
      destruct IH as [made [-> Hout]].
      exists ((b, r) :: made). split; [now rewrite <- app_assoc|].
      destruct Hout as [(-> & -> & Hall) | (pre & p & post & e & -> & -> & Hpre & Hp & ->)].
      * left. repeat split. now constructor.
      * right. exists ((b, r) :: pre), p, post, e. repeat split; auto.
    + exists [(b, r)]. split; [reflexivity|].
      right. exists [], (b, r), rest, e. repeat split; auto.
Qed.

(** C3 fails in the Calibre script: two recipients, the first send raises.
    The exception leaves the loop, so the second recipient is never tried
    (and [main] then exits with 1). *)
Lemma calibre_failure_skips_remaining_recipients :
  let b := sample_book 7 "Topology" "2024-02-02" in
  let send := fun (_ : Calibre.book) (r : string) =>
                if String.eqb r "alice@example.org"
                then Err "SMTPAuthenticationError" else Ok tt in
  Calibre.send_selected send [b] ["alice@example.org"; "bob@example.org"] []
  = ([(b, "alice@example.org")], Err "SMTPAuthenticationError")
  /\ exit_code (snd (Calibre.send_selected send [b]
                      ["alice@example.org"; "bob@example.org"] [])) = 1.
Proof. split; reflexivity. Qed.

(** C3, as amended.  The Calibre script sends one message per (record,
    recipient) pair, in order; all pairs are attempted when every send
    succeeds, and otherwise the attempts stop at the first failing pair,
    whose exception ends the run with exit code 1.  The Zotero script
    addresses all recipients in one SMTP submission whose outcome is a
    single boolean. *)
Theorem send_attempts_per_script :
  (forall (send : Calibre.book -> string -> result unit) selected recipients,
     let '(attempts, outcome) :=
       Calibre.send_selected send selected recipients [] in
     sequential_outcome send (list_prod selected recipients) attempts outcome)
  /\ (forall read_attachment basename to_emails subject body attachments smtp,
     let '(sent, msg) :=
       Zotero.send_email_with_attachments read_attachment basename to_emails
         subject body attachments smtp in
     Zotero.msg_to msg = to_emails /\ (sent = true <-> smtp msg = Ok tt)).
Proof.
  split.
  - intros send selected recipients.
    rewrite send_selected_pairs.
    pose proof (send_pairs_outcome send (list_prod selected recipients) []) as H.
    destruct (send_pairs send (list_prod selected recipients) []) as [a o].
    destruct H as [made [-> Hout]]. exact Hout.
  - intros. unfold Zotero.send_email_with_attachments.
    match goal with |- context [smtp ?m] => destruct (smtp m) as [[]|e] eqn:Hs end;
      simpl; rewrite Hs; repeat split; congruence.
Qed.

(** ** The sent-log of the random mode *)

Lemma str_app_assoc (a b c : string) : ((a ++ b) ++ c) = (a ++ (b ++ c)).
Proof. induction a as [|x a IH]; simpl; [reflexivity | now rewrite IH]. Qed.

Lemma split_lines_nonempty (s : string) : Calibre.split_lines s <> [].
Proof.
  induction s as [|c s IH]; simpl; [discriminate|].
  destruct (Calibre.is_newline c); [discriminate|].
  destruct (Calibre.split_lines s); discriminate.
Qed.

Lemma split_lines_app_nl (a b : string) :
  Calibre.split_lines (a ++ String "010"%char b) = app (Calibre.split_lines a) (Calibre.split_lines b).
Proof.
  induction a as [|c a IH]; simpl; [reflexivity|].
  rewrite IH. destruct (Calibre.is_newline c); [reflexivity|].
  pose proof (split_lines_nonempty a) as Hne.
  destruct (Calibre.split_lines a); [contradiction | reflexivity].
Qed.

Lemma is_digit_char (d : nat) : d < 10 -> is_digit (ascii_of_nat (48 + d)) = true.
Proof.
  intro Hd. unfold is_digit.
  rewrite Ascii.nat_ascii_embedding by lia.
  apply andb_true_intro; split; apply Nat.leb_le; lia.
Qed.

Lemma is_digit_not_ws (c : ascii) :
  is_digit c = true -> is_ws c = false /\ Calibre.is_newline c = false.
Proof.
  destruct c as [b0 b1 b2 b3 b4 b5 b6 b7].
  destruct b0, b1, b2, b3, b4, b5, b6, b7; vm_compute;
    intro H; first [discriminate H | split; reflexivity].
Qed.

Lemma str_of_nat_aux_digits (fuel n : nat) (acc : string) :
  all_chars is_digit acc = true ->
  all_chars is_digit (str_of_nat_aux fuel n acc) = true.
Proof.
  revert n acc. induction fuel as [|fuel IH]; intros n acc Hacc; cbn [str_of_nat_aux];
    [exact Hacc|].
  assert (Hc : all_chars is_digit (String (ascii_of_nat (48 + n mod 10)) acc) = true).
  { cbn [all_chars]. rewrite is_digit_char by (apply Nat.mod_upper_bound; lia). exact Hacc. }
  destruct (Nat.ltb n 10); [exact Hc | now apply IH].
Qed.

Lemma str_of_nat_aux_nonempty (fuel n : nat) (acc : string) :
  (acc <> EmptyString \/ fuel <> 0) -> str_of_nat_aux fuel n acc <> EmptyString.
Proof.
  revert n acc. induction fuel as [|fuel IH]; intros n acc H; simpl.
  - destruct H; [assumption | contradiction].
  - destruct (Nat.ltb n 10); [discriminate|].
    apply IH. left. discriminate.
Qed.

Lemma digits_split_lines (d : string) :
  all_chars is_digit d = true -> Calibre.split_lines d = [d].
Proof.
  induction d as [|c d IH]; simpl; [reflexivity|].
  intro H. apply andb_prop in H as [Hc Hd].
  destruct (is_digit_not_ws c Hc) as [_ Hnl].
  rewrite Hnl, (IH Hd). reflexivity.
Qed.

Lemma digits_rstrip (d : string) : all_chars is_digit d = true -> rstrip d = d.
Proof.
  induction d as [|c d IH]; simpl; [reflexivity|].
  intro H. apply andb_prop in H as [Hc Hd].
  destruct (is_digit_not_ws c Hc) as [Hws _].
  rewrite (IH Hd). destruct d; [rewrite Hws|]; reflexivity.
Qed.

Lemma digits_strip (d : string) :
  all_chars is_digit d = true -> strip d = d.
Proof.
  intro H. unfold strip.
  assert (Hl : lstrip d = d).
  { destruct d as [|c d']; [reflexivity|].
    simpl in H. apply andb_prop in H as [Hc _].
    destruct (is_digit_not_ws c Hc) as [Hws _].
    simpl. rewrite Hws. reflexivity. }
  rewrite Hl. now apply digits_rstrip.
Qed.

Lemma str_of_nat_digits (n : nat) :
  all_chars is_digit (str_of_nat n) = true /\ str_of_nat n <> EmptyString.
Proof.
  split.
  - apply str_of_nat_aux_digits. reflexivity.
  - apply str_of_nat_aux_nonempty. right. discriminate.
Qed.

(** The id appended to a log that is empty or ends with a line break is
    read back by the next [Calibre.read_sent_ids]. *)
Lemma appended_id_read_back (log : string) (n : nat) :
  (log = EmptyString \/ exists a, log = (a ++ String "010"%char EmptyString)) ->
  In (str_of_nat n) (Calibre.read_sent_ids (log ++ str_of_nat n ++ String "010"%char EmptyString)).
Proof.
  intro Hlog.
  destruct (str_of_nat_digits n) as [Hdig Hne].
  set (d := str_of_nat n) in *.
  assert (Hd : Calibre.split_lines (d ++ String "010"%char EmptyString) = [d; EmptyString]).
  { rewrite split_lines_app_nl, digits_split_lines by exact Hdig. reflexivity. }
  assert (Hin : In d (Calibre.read_sent_ids (d ++ String "010"%char EmptyString))).
  { unfold Calibre.read_sent_ids. rewrite Hd. simpl.
    rewrite digits_strip by exact Hdig.
    destruct (String.eqb d EmptyString) eqn:E.
    - apply String.eqb_eq in E. contradiction.
    - simpl. left. reflexivity. }
  destruct Hlog as [-> | [a ->]]; [exact Hin|].
  unfold Calibre.read_sent_ids in *.
  rewrite str_app_assoc. simpl.
  rewrite split_lines_app_nl, map_app, filter_app.
  apply in_or_app. right. exact Hin.
Qed.

Lemma select_random_book_spec (books : list Calibre.book) (log : string)
  (r : nat) (b : Calibre.book) (log' : string) :
  Calibre.select_random_book books log r = (Some b, log') ->
  In b books
  /\ existsb (String.eqb (str_of_nat (Calibre.book_id b))) (Calibre.read_sent_ids log) = false
  /\ log' = (log ++ str_of_nat (Calibre.book_id b) ++ String "010"%char EmptyString).
Proof.
  unfold Calibre.select_random_book.
  destruct books as [|b0 rest]; [discriminate|].
  set (unsent := filter _ (b0 :: rest)).
  destruct unsent as [|u us] eqn:Hu; [discriminate|].
  rewrite <- Hu.
  destruct (random_choice unsent r) as [sel|] eqn:Hr; [|discriminate].
  intro H. injection H as <- <-.
  unfold random_choice in Hr. apply nth_error_In in Hr.
  unfold unsent in Hr. apply filter_In in Hr as [Hin Hneg].
  apply negb_true_iff in Hneg.
  repeat split; assumption.
Qed.

(** C4 fails in both scripts.  Calibre: [select_random_book] appends the
    id without checking that the log ends with a line break, so a sent-log
    [7] without final line break gets [5] glued onto its last line; the log
    reads [75], and the next run selects and sends book 5 again.  Zotero:
    the random mode keeps no sent-log at all, and two runs can pick the
    same paper. *)
Lemma random_mode_reselects_sent_record :
  let b5 := sample_book 5 "Graphs" "2024-03-03" in
  Calibre.select_random_book [b5] "7" 0 = (Some b5, "75
")
  /\ Calibre.select_random_book [b5] "75
" 0 = (Some b5, "75
5
")
  /\ (let p1 := Zotero.mk_item "P1" "journalArticle" (Some "Paper one") in
      let p2 := Zotero.mk_item "P2" "journalArticle" (Some "Paper two") in
      Zotero.choose_papers (Zotero.RandomPaper [p1; p2] 0) 5 = Some [p1]
      /\ Zotero.choose_papers (Zotero.RandomPaper [p1; p2] 2) 5 = Some [p1]).
Proof. vm_compute. repeat split. Qed.

Lemma read_sent_ids_nl (a b : string) :
  Calibre.read_sent_ids (a ++ String "010"%char b)
  = (Calibre.read_sent_ids a ++ Calibre.read_sent_ids b)%list.
Proof.
  unfold Calibre.read_sent_ids. now rewrite split_lines_app_nl, map_app, filter_app.
Qed.

(** In the Calibre script a random selection is a record of the catalog
    whose id is not in the sent-log, and the log is extended with the id
    and a line break before any send is attempted.  When the log was empty
    or ended with a line break, the id is then read back from the log left
    by the run, whatever the send outcome, and from every log obtained by
    appending to it; no random selection on such a log, from any catalog,
    picks a record with that id. *)
Theorem random_selection_logged_before_send :
  forall (books : list Calibre.book) (log : string) (r : nat)
         (b : Calibre.book) (log1 : string),
  Calibre.select_random_book books log r = (Some b, log1) ->
  In b books
  /\ ~ In (str_of_nat (Calibre.book_id b)) (Calibre.read_sent_ids log)
  /\ log1 = (log ++ str_of_nat (Calibre.book_id b) ++ "
")
  /\ ((log = "" \/ exists a, log = (a ++ "
")) ->
      forall send recipients log2 code,
      Calibre.main_random_send books log r send recipients = (log2, code) ->
      forall later,
      In (str_of_nat (Calibre.book_id b)) (Calibre.read_sent_ids (log2 ++ later))
      /\ forall books' r' b' log3,
         Calibre.select_random_book books' (log2 ++ later) r' = (Some b', log3) ->
         Calibre.book_id b' <> Calibre.book_id b).
Proof.
  intros books log r b log1 Hsel.
  destruct (select_random_book_spec _ _ _ _ _ Hsel) as (Hin & Hnot & Hlog1).
  split; [exact Hin|].
  split.
  { intro Hc. apply not_true_iff_false in Hnot. apply Hnot.
    apply existsb_exists. exists (str_of_nat (Calibre.book_id b)).
    split; [exact Hc | apply String.eqb_refl]. }
  split; [exact Hlog1|].
  intros Hend send recipients log2 code Hmain later.
  unfold Calibre.main_random_send in Hmain. rewrite Hsel in Hmain.
  injection Hmain as <- _.
  set (d := str_of_nat (Calibre.book_id b)) in *.
  assert (Hread : In d (Calibre.read_sent_ids (log ++ d))).
  { pose proof (appended_id_read_back log (Calibre.book_id b) Hend) as H.
    fold d in H. rewrite <- str_app_assoc, read_sent_ids_nl in H.
    change (Calibre.read_sent_ids "") with (@nil string) in H.
    now rewrite app_nil_r in H. }
  assert (Hread' : In d (Calibre.read_sent_ids (log1 ++ later))).
  { rewrite Hlog1, !str_app_assoc. cbn [String.append].
    rewrite <- str_app_assoc, read_sent_ids_nl. apply in_or_app. now left. }
  split; [exact Hread'|].
  intros books' r' b' log3 Hsel' Heq.
  destruct (select_random_book_spec _ _ _ _ _ Hsel') as (_ & Hnot' & _).
  rewrite Heq in Hnot'. fold d in Hnot'.
  apply not_true_iff_false in Hnot'. apply Hnot'.
  apply existsb_exists. exists d.
  split; [exact Hread' | apply String.eqb_refl].
Qed.

(** ** Attachments and the size limit *)

Lemma str_app_nil_r (s : string) : (s ++ "") = s.
Proof. induction s as [|c s IH]; simpl; [reflexivity | now rewrite IH]. Qed.

Lemma is_prefix_app (p s t : string) :
  is_prefix p s = true -> is_prefix p (s ++ t) = true.
Proof.
  revert s. induction p as [|c p IH]; intros s H; [reflexivity|].
  destruct s as [|d s]; [discriminate|].
  simpl in *. apply andb_prop in H as [Hc Hp].
  rewrite Hc. simpl. now apply IH.
Qed.

Lemma is_prefix_refl (p : string) : is_prefix p p = true.
Proof.
  induction p as [|c p IH]; [reflexivity|].
  simpl. rewrite Ascii.eqb_refl. exact IH.
Qed.

Lemma str_contains_app_r (s t p : string) :
  str_contains s p = true -> str_contains (s ++ t) p = true.
Proof.
  induction s as [|c s IH]; intro H.
  - simpl in H. apply orb_true_iff in H as [H|H]; [|discriminate].
    destruct p; [destruct t; reflexivity | discriminate].
  - simpl in H |- *. apply orb_true_iff in H as [H|H].
    + pose proof (is_prefix_app _ _ t H) as H'. simpl in H'. now rewrite H'.
    + rewrite (IH H). apply orb_true_r.
Qed.

Lemma str_contains_app_l (s t p : string) :
  str_contains t p = true -> str_contains (s ++ t) p = true.
Proof.
  induction s as [|c s IH]; intro H; [exact H|].
  simpl. rewrite (IH H). apply orb_true_r.
Qed.

Lemma str_contains_self (p : string) : str_contains p p = true.
Proof. destruct p; simpl; [reflexivity|]. rewrite Ascii.eqb_refl, is_prefix_refl. reflexivity. Qed.

Lemma str_contains_concat (sep l : string) (ls : list string) :
  In l ls -> str_contains (String.concat sep ls) l = true.
Proof.
  induction ls as [|x xs IH]; intro Hin; [destruct Hin|].
  destruct Hin as [<- | Hin].
  - simpl. destruct xs.
    + apply str_contains_self.
    + apply str_contains_app_r, str_contains_self.
  - simpl. destruct xs as [|y ys]; [destruct Hin|].
    apply str_contains_app_l, str_contains_app_l. now apply IH.
Qed.

(** C6 fails in the Calibre script: the two Drive files total 25 MiB, yet
    the message carries one binary part (the 15 MiB file) and its body
    lists no Drive link. *)
Lemma calibre_25MiB_total_still_attaches :
  15 * 1024 * 1024 + 10 * 1024 * 1024 = 25 * 1024 * 1024
  /\ Calibre.send_book_email example_file_id example_metadata example_download
       (sample_book 3 "Analysis" "2024-04-04") example_attachments
       (Ok "Analysis") true "x@example.org" (fun _ => Ok tt)
     = Ok (Calibre.mk_email "x@example.org" "[Calibre] Random Book: Analysis"
             [("a.pdf", "%PDF-A")] ("Analysis" ++ Calibre.email_notice)).
Proof.
  split; [lia|].
  assert (H : Nat.leb (15 * 1024 * 1024) Calibre.size_limit = true)
    by (apply Nat.leb_le; unfold Calibre.size_limit; lia).
  unfold Calibre.send_book_email, example_attachments.
  cbn [Calibre.attach_first Calibre.drive_url truthy given_file].
  unfold example_file_id. cbn [String.eqb Ascii.eqb Bool.eqb andb].
  unfold example_metadata. cbn [String.eqb Ascii.eqb Bool.eqb andb].
  rewrite H. reflexivity.
Qed.

Lemma attach_first_some (ext : string -> option string)
  (meta : string -> result (string * nat)) (dl : string -> result string)
  (atts : list Calibre.attachment) (name bytes : string) :
  Calibre.attach_first ext meta dl atts = Some (name, bytes) ->
  exists a url fid size, In a atts /\ truthy (Calibre.drive_url a) = Some url
    /\ ext url = Some fid /\ meta fid = Ok (name, size)
    /\ size <= Calibre.size_limit /\ dl fid = Ok bytes.
Proof.
  induction atts as [|a rest IH]; cbn [Calibre.attach_first]; [discriminate|].
  intro H.
  destruct (truthy (Calibre.drive_url a)) as [url|] eqn:Hu;
    [|destruct (IH H) as (a' & u & f & s & Hin & R); exists a', u, f, s; split; [right; exact Hin | exact R]].
  destruct (ext url) as [fid|] eqn:He;
    [|destruct (IH H) as (a' & u & f & s & Hin & R); exists a', u, f, s; split; [right; exact Hin | exact R]].
  destruct (meta fid) as [[n sz]|e] eqn:Hm;
    [|destruct (IH H) as (a' & u & f & s & Hin & R); exists a', u, f, s; split; [right; exact Hin | exact R]].
  destruct (Nat.leb sz Calibre.size_limit) eqn:Hs;
    [|destruct (IH H) as (a' & u & f & s & Hin & R); exists a', u, f, s; split; [right; exact Hin | exact R]].
  destruct (dl fid) as [bs|e] eqn:Hd;
    [|destruct (IH H) as (a' & u & f & s & Hin & R); exists a', u, f, s; split; [right; exact Hin | exact R]].
  injection H as -> ->.
  exists a, url, fid, sz. apply Nat.leb_le in Hs.
  repeat split; auto. left. reflexivity.
Qed.

(** C6, as amended.  Calibre: at most one file is attached, the first
    Drive file whose own size is at most 20 MiB and whose download succeeds;
    when none is attached the message has no binary part and its body lists
    every Drive link.  Zotero (default body): when the downloaded files
    total more than 20 MiB the message has no binary part and the body
    lists each file with its Drive link; otherwise every downloaded file
    that can be read is attached. *)
Theorem attachment_size_policy :
  (forall ext meta dl b atts text recipient smtp msg,
     Calibre.send_book_email ext meta dl b atts (Ok text) true recipient smtp = Ok msg ->
     match Calibre.attach_first ext meta dl atts with
     | Some (name, bytes) =>
         Calibre.binary_parts msg = [(name, bytes)]
         /\ exists a url fid size, In a atts /\ truthy (Calibre.drive_url a) = Some url
              /\ ext url = Some fid /\ meta fid = Ok (name, size)
              /\ size <= Calibre.size_limit /\ dl fid = Ok bytes
     | None =>
         Calibre.binary_parts msg = []
         /\ forall a url, In a atts -> truthy (Calibre.drive_url a) = Some url ->
            str_contains (Calibre.email_body msg) (Calibre.local_path a ++ ": " ++ url) = true
     end)
  /\ (forall read basename paths extr dl authors doi sel max_papers subject
             recipients smtp sent msg,
     Zotero.send_paper_by_email read basename paths extr dl authors doi
       sel max_papers true subject None recipients smtp = (sent, Some msg) ->
     exists papers, Zotero.choose_papers sel max_papers = Some papers
     /\ let infos := Zotero.paper_info_list basename paths extr dl authors doi papers in
        if Nat.ltb Zotero.size_limit (Zotero.total_size infos)
        then Zotero.binary_parts msg = []
             /\ forall pi a, In pi infos -> In a (Zotero.info_attachments pi) ->
                str_contains (Zotero.msg_body msg)
                  ("- " ++ Zotero.att_filename a ++ " - " ++ Zotero.att_drive_url a) = true
        else Zotero.binary_parts msg =
               flat_map (fun p => match read p with
                                  | Some bytes => [(basename p, bytes)]
                                  | None => []
                                  end) (Zotero.valid_attachment_paths infos)).
Proof.
  split.
  - intros ext meta dl b atts text recipient smtp msg H.
    unfold Calibre.send_book_email in H.
    destruct (smtp _) as [[]|e]; [|discriminate].
    injection H as <-.
    destruct (Calibre.attach_first ext meta dl atts) as [[name bytes]|] eqn:Ha.
    + split; [reflexivity|]. now apply attach_first_some.
    + split; [reflexivity|].
      intros a url Hin Hu. cbn [Calibre.email_body].
      unfold Calibre.compose_body.
      assert (Hl : In (Calibre.local_path a ++ ": " ++ url) (Calibre.drive_link_lines atts)).
      { unfold Calibre.drive_link_lines. apply in_flat_map. exists a.
        rewrite Hu. split; [exact Hin | left; reflexivity]. }
      destruct atts as [|a0 atts']; [destruct Hin|].
      destruct (Calibre.drive_link_lines (a0 :: atts')) as [|l0 ls] eqn:Hls; [destruct Hl|].
      cbn [negb andb].
      apply str_contains_app_r, str_contains_app_l, str_contains_app_l.
      apply str_contains_concat. exact Hl.
  - intros read basename paths extr dl authors doi sel max_papers subject
      recipients smtp sent msg H.
    unfold Zotero.send_paper_by_email in H.
    destruct (Zotero.choose_papers sel max_papers) as [papers|]; [|discriminate].
    exists papers. split; [reflexivity|].
    cbn [negb] in H. cbv zeta in H |- *.
    remember (Zotero.paper_info_list basename paths extr dl authors doi papers) as infos eqn:Hinfos.
    destruct infos as [|i0 is]; [discriminate|].
    unfold Zotero.send_email_with_attachments in H.
    match type of H with
    | context [Zotero.mk_message ?t ?s ?b ?p] => set (m := Zotero.mk_message t s b p) in H
    end.
    assert (Hm : msg = m) by (destruct (smtp m) as [[]|e]; congruence).
    clear H. subst msg. unfold m. cbn [Zotero.msg_body Zotero.binary_parts].
    destruct (Nat.ltb Zotero.size_limit (Zotero.total_size (i0 :: is))) eqn:Hex;
     [split; [reflexivity|] | reflexivity].
    intros pi a Hpi Ha; cbn [truthy given_file];
    apply str_contains_concat; unfold Zotero.default_body_lines;
    (apply in_or_app; right; apply in_or_app; left);
    apply in_flat_map; exists pi; split; [exact Hpi| ];
    unfold Zotero.paper_lines; repeat (apply in_or_app; right);
    apply in_map_iff; exists a; split; [reflexivity | exact Ha].
Qed.

(** ** Tag filtering *)

(** C8 fails: of three records, two carry the tag [math] and the third
    carries [mathematics]; filtering by [math] keeps all three, since
    [cat in tag] is a substring test. *)
Lemma math_filter_keeps_substring_tag :
  let b1 := sample_book 1 "Algebra" "2024-03-03" in
  let b2 := sample_book 2 "Real Analysis" "2024-02-02" in
  let b3 := sample_book 3 "Calculus" "2024-01-01" in
  let tags_of := example_tags [(1, ["math"]); (2, ["mathematics"]); (3, ["math"])] in
  Calibre.filter_by_tags tags_of (Calibre.normalize_tags ["math"]) [b1; b2; b3]
  = [b1; b2; b3].
Proof. vm_compute. reflexivity. Qed.

(** The filter by the single tag [math] is the substring test both ways. *)
Lemma math_filter_rule (tags_of : nat -> list string) (books : list Calibre.book) :
  Calibre.filter_by_tags tags_of (Calibre.normalize_tags ["math"]) books
  = filter (fun b => existsb (fun t => str_contains t "math" || str_contains "math" t)
                       (map lower (tags_of (Calibre.book_id b)))) books.
Proof.
  change (Calibre.normalize_tags ["math"]) with ["math"].
  unfold Calibre.filter_by_tags. apply filter_ext. intros b.
  unfold Calibre.tag_match. cbn [existsb]. apply orb_false_r.
Qed.

Lemma existsb_false_forall {A : Type} (p : A -> bool) (l : list A) :
  existsb p l = false -> forall x, In x l -> p x = false.
Proof.
  intros H x Hx. apply not_true_iff_false. intro Hp.
  apply not_true_iff_false in H. apply H, existsb_exists. eauto.
Qed.

(** C8, as amended.  Filtering by [math] keeps, in catalog order, exactly
    the records one of whose lowercased tags contains [math] or is
    contained in [math].  Of three records, two of which carry the tag
    [math], the filter yields exactly those two, in their order, if and
    only if no tag of the third contains [math] or is contained in it. *)
Theorem math_filter_keep_rule :
  (forall (tags_of : nat -> list string) (books : list Calibre.book),
     Calibre.filter_by_tags tags_of (Calibre.normalize_tags ["math"]) books
     = filter (fun b => existsb (fun t => str_contains t "math" || str_contains "math" t)
                          (map lower (tags_of (Calibre.book_id b)))) books)
  /\ (forall (tags_of : nat -> list string) (b1 b2 b3 : Calibre.book),
     In "math" (map lower (tags_of (Calibre.book_id b1))) ->
     In "math" (map lower (tags_of (Calibre.book_id b2))) ->
     (Calibre.filter_by_tags tags_of (Calibre.normalize_tags ["math"]) [b1; b2; b3]
        = [b1; b2]
      <-> forall t, In t (map lower (tags_of (Calibre.book_id b3))) ->
          str_contains t "math" = false /\ str_contains "math" t = false)).
Proof.
  split; [exact math_filter_rule|].
  intros tags_of b1 b2 b3 H1 H2. rewrite math_filter_rule.
  remember (fun b : Calibre.book =>
              existsb (fun t => str_contains t "math" || str_contains "math" t)
                (map lower (tags_of (Calibre.book_id b)))) as f eqn:Ef.
  assert (Hkeep : forall b, In "math" (map lower (tags_of (Calibre.book_id b))) ->
                  f b = true).
  { intros b Hb. subst f. apply existsb_exists. exists "math".
    split; [exact Hb|]. now rewrite str_contains_self. }
  cbn [filter]. rewrite (Hkeep b1 H1), (Hkeep b2 H2).
  destruct (f b3) eqn:E3.
  - split; [intro Heq; discriminate Heq|].
    intro H. exfalso. subst f. apply existsb_exists in E3 as (t & Ht & Hc).
    destruct (H t Ht) as [A B]. rewrite A, B in Hc. discriminate.
  - split; [intros _|reflexivity].
    intros t Ht. subst f.
    apply (existsb_false_forall _ _ E3 t) in Ht. now apply orb_false_elim in Ht.
Qed.

(** ** Selection by id and by title *)

(** C9: [-i 5 -i 5] selects book 5 twice, so it is sent twice, whereas the
    title path drops a record already selected ([if m not in
    selected_books]). *)
Theorem select_by_ids_keeps_duplicates :
  let b5 := sample_book 5 "Graphs" "2024-03-03" in
  Calibre.select_by_ids [b5] [5; 5] = [b5; b5]
  /\ Calibre.select_by_titles [b5] ["graph"; "Graphs"] = [b5]
  /\ fst (Calibre.send_selected (fun _ _ => Ok tt) (Calibre.select_by_ids [b5] [5; 5])
            ["x@example.org"] [])
     = [(b5, "x@example.org"); (b5, "x@example.org")].
Proof. vm_compute. repeat split. Qed.

(** ** Drive links, title search, collections, DOIs and attachments *)

Module DriveUrlFacts.


Lemma re_search_skip (m : string -> option string) (bad : ascii -> bool) :
  (forall c t, bad c = true -> m (String c t) = None) ->
  forall a s, all_chars bad a = true -> re_search m (a ++ s) = re_search m s.
Proof.
  intros Hm a; induction a as [|c a IH]; intros s Ha; [reflexivity|].
  simpl in Ha; apply andb_prop in Ha as [Hc Ha].
  simpl. rewrite (Hm c _ Hc). apply IH, Ha.
Qed.

Lemma take_while_app (p : ascii -> bool) a s :
  all_chars p a = true ->
  match s with EmptyString => true | String c _ => negb (p c) end = true ->
  take_while p (a ++ s) = a.
Proof.
  induction a as [|c a IH]; simpl; intros Ha Hs.
  - destruct s as [|c s]; [reflexivity|]. simpl. now destruct (p c).
  - apply andb_prop in Ha as [Hc Ha]. rewrite Hc, IH; auto.
Qed.

Lemma re_search_none (m : string -> option string) (bad : ascii -> bool) :
  (forall c t, bad c = true -> m (String c t) = None) -> m "" = None ->
  forall a, all_chars bad a = true -> re_search m a = None.
Proof.
  intros Hm H0 a Ha. rewrite <- (str_app_nil_r a).
  rewrite (re_search_skip m bad Hm a "" Ha). simpl. now rewrite H0.
Qed.

Lemma take_while_all (p : ascii -> bool) a :
  all_chars p a = true -> take_while p a = a.
Proof.
  intros Ha. rewrite <- (str_app_nil_r a) at 1. apply take_while_app; auto.
Qed.

Lemma all_chars_impl (p q : ascii -> bool) s :
  (forall c, p c = true -> q c = true) -> all_chars p s = true -> all_chars q s = true.
Proof.
  intros H; induction s as [|c s IH]; simpl; auto.
  intros Hs; apply andb_prop in Hs as [H1 H2]; rewrite (H c H1); auto.
Qed.

Lemma drive_file_url_id id : id <> "" -> all_chars zid_ok id = true ->
  ZoteroDrive.extract_file_id_from_drive_url ("https://drive.google.com/file/d/" ++ id ++ "/view") = Some id.
Proof.
  intros Hne Hid. unfold ZoteroDrive.extract_file_id_from_drive_url.
  simpl.
  unfold lit_run at 1; simpl. rewrite take_while_app.
  - destruct id; [congruence|reflexivity].
  - eapply all_chars_impl; [|exact Hid]. unfold zid_ok. intros c Hc.
    now apply andb_prop in Hc as [Hc _]; apply andb_prop in Hc as [Hc _].
  - reflexivity.
Qed.

Lemma lit_run_mismatch c0 lit cls c t :
  Ascii.eqb c0 c = false -> lit_run (String c0 lit) cls (String c t) = None.
Proof. intros H. unfold lit_run. simpl. now rewrite H. Qed.

Lemma eqb_false_of_neg c d : negb (Ascii.eqb c d) = true -> Ascii.eqb d c = false.
Proof. intros H. rewrite Ascii.eqb_sym. destruct (Ascii.eqb c d); simpl in *; congruence. Qed.

Lemma zid_not_slash c : zid_ok c = true -> ZoteroDrive.not_slash c = true.
Proof.
  unfold zid_ok. intros H. apply andb_prop in H as [H _].
  now apply andb_prop in H as [H _].
Qed.

Lemma zid_not_amp c : zid_ok c = true -> ZoteroDrive.not_amp c = true.
Proof. unfold zid_ok. intros H. now apply andb_prop in H as [_ H]. Qed.

Lemma zid_not_qa c : zid_ok c = true -> negb (Ascii.eqb c "?" || Ascii.eqb c "&") = true.
Proof.
  unfold zid_ok, ZoteroDrive.not_slash, ZoteroDrive.not_amp.
  destruct (Ascii.eqb c "?"), (Ascii.eqb c "&"); simpl; rewrite ?andb_false_r;
    auto.
Qed.

Lemma pat_slash_none lit t :
  forall c, ZoteroDrive.not_slash c = true ->
  lit_run (String "/" lit) ZoteroDrive.not_slash (String c t) = None.
Proof. intros c Hc. apply lit_run_mismatch, eqb_false_of_neg, Hc. Qed.

Lemma id_param_none c t :
  negb (Ascii.eqb c "?" || Ascii.eqb c "&") = true -> ZoteroDrive.id_param (String c t) = None.
Proof. simpl. now destruct (Ascii.eqb c "?" || Ascii.eqb c "&"). Qed.

Lemma drive_open_url_id id : id <> "" -> all_chars zid_ok id = true ->
  ZoteroDrive.extract_file_id_from_drive_url ("https://drive.google.com/open?id=" ++ id) = Some id.
Proof.
  intros Hne Hid. unfold ZoteroDrive.extract_file_id_from_drive_url.
  simpl.
  rewrite (re_search_none _ ZoteroDrive.not_slash);
    [| intros c t Hc; apply pat_slash_none, Hc | reflexivity
     | eapply all_chars_impl; [apply zid_not_slash | exact Hid]].
  unfold lit_run at 1; simpl.
  rewrite take_while_all; [|eapply all_chars_impl; [apply zid_not_amp | exact Hid]].
  destruct id; [congruence|reflexivity].
Qed.

Lemma strip_prefix_some_is_prefix p s r : strip_prefix p s = Some r -> is_prefix p s = true.
Proof.
  revert s; induction p as [|a p IH]; intros [|c s]; simpl; try congruence.
  destruct (Ascii.eqb a c); simpl; [apply IH | congruence].
Qed.

Lemma strip_prefix_cons c p d s :
  strip_prefix (String c p) (String d s) = if Ascii.eqb c d then strip_prefix p s else None.
Proof. reflexivity. Qed.

Lemma strip_prefix_blocked p q id t :
  all_chars ZoteroDrive.not_slash p = true ->
  all_chars ZoteroDrive.not_slash id = true ->
  is_prefix (String "/" q) t = false ->
  (match t with String c _ => Ascii.eqb c "/" | EmptyString => false end) = true ->
  strip_prefix (p ++ String "/" q) (id ++ t) = None.
Proof.
  intros Hp Hid Hq Ht. revert id Hid.
  induction p as [|a p IH]; intros id Hid.
  - destruct id as [|c id]; cbn [String.append].
    + destruct (strip_prefix (String "/" q) t) eqn:E; [|reflexivity].
      apply strip_prefix_some_is_prefix in E. congruence.
    + simpl in Hid. apply andb_prop in Hid as [Hc _].
      cbn [strip_prefix]. rewrite (eqb_false_of_neg _ _ Hc). reflexivity.
  - simpl in Hp. apply andb_prop in Hp as [Ha Hp].
    destruct id as [|c id]; simpl.
    + destruct t as [|c t]; [reflexivity|].
      apply Ascii.eqb_eq in Ht; subst c.
      unfold ZoteroDrive.not_slash in Ha.
      destruct (Ascii.eqb a "/"); [discriminate | reflexivity].
    + simpl in Hid. apply andb_prop in Hid as [_ Hid].
      destruct (Ascii.eqb a c); [apply IH; auto | reflexivity].
Qed.

Lemma docs_document_url_id id : id <> "" -> all_chars zid_ok id = true ->
  ZoteroDrive.extract_file_id_from_drive_url ("https://docs.google.com/document/d/" ++ id ++ "/edit") = Some id.
Proof.
  intros Hne Hid.
  assert (H3 : lit_run "/document/d/" ZoteroDrive.not_slash
                 ("/document/d/" ++ id ++ "/edit") = Some id).
  { unfold lit_run; simpl.
    rewrite take_while_app;
      [| eapply all_chars_impl; [apply zid_not_slash | exact Hid] | reflexivity].
    destruct id; [congruence|reflexivity]. }
  simpl in H3.
  unfold ZoteroDrive.extract_file_id_from_drive_url.
  simpl.
  rewrite (re_search_skip _ ZoteroDrive.not_slash);
    [| intros c t Hc; apply pat_slash_none, Hc
     | eapply all_chars_impl; [apply zid_not_slash | exact Hid]].
  rewrite (re_search_skip _ (fun c => negb (Ascii.eqb c "?" || Ascii.eqb c "&")));
    [| intros c t Hc; apply id_param_none, Hc
     | eapply all_chars_impl; [apply zid_not_qa | exact Hid]].
  assert (H1 : lit_run "/file/d/" ZoteroDrive.not_slash
                 (String "/" (id ++ "/edit")) = None).
  { pose proof (strip_prefix_blocked "file" "d/" id "/edit") as B.
    cbn [String.append] in B.
    unfold lit_run. rewrite strip_prefix_cons, Ascii.eqb_refl, B; auto.
    eapply all_chars_impl; [apply zid_not_slash | exact Hid]. }
  rewrite H1, H3. reflexivity.
Qed.

Lemma id_char_not_slash c : CalibreDrive.is_id_char c = true -> negb (Ascii.eqb c "/") = true.
Proof.
  destruct c as [b0 b1 b2 b3 b4 b5 b6 b7].
  destruct b0, b1, b2, b3, b4, b5, b6, b7; vm_compute; congruence.
Qed.

Lemma calibre_file_url_id id : id <> "" -> all_chars CalibreDrive.is_id_char id = true ->
  CalibreDrive.send_book_email_file_id ("https://drive.google.com/file/d/" ++ id ++ "/view") = Some id.
Proof.
  intros Hne Hid. unfold CalibreDrive.send_book_email_file_id.
  simpl. unfold lit_run at 1; simpl.
  rewrite take_while_app; [| exact Hid | reflexivity].
  destruct id; [congruence|reflexivity].
Qed.

Lemma calibre_open_url_id id : id <> "" -> all_chars CalibreDrive.is_id_char id = true ->
  CalibreDrive.send_book_email_file_id ("https://drive.google.com/open?id=" ++ id) = Some id.
Proof.
  intros Hne Hid. unfold CalibreDrive.send_book_email_file_id.
  simpl.
  rewrite (re_search_none _ (fun c => negb (Ascii.eqb c "/")));
    [| intros c t Hc; apply lit_run_mismatch, eqb_false_of_neg, Hc | reflexivity
     | eapply all_chars_impl; [apply id_char_not_slash | exact Hid]].
  unfold lit_run at 1; simpl.
  rewrite take_while_all; [|exact Hid].
  destruct id; [congruence|reflexivity].
Qed.

(** Zotero's [extract_file_id_from_drive_url] gives back the file id [id] of
    the three Google URL forms it handles (file/d, open?id=, document/d), for
    every non-empty id made of characters other than [/], [?] and [&]. *)
Theorem extract_file_id_from_drive_url_round_trip id :
  id <> "" -> all_chars zid_ok id = true ->
  ZoteroDrive.extract_file_id_from_drive_url
    ("https://drive.google.com/file/d/" ++ id ++ "/view") = Some id /\
  ZoteroDrive.extract_file_id_from_drive_url
    ("https://drive.google.com/open?id=" ++ id) = Some id /\
  ZoteroDrive.extract_file_id_from_drive_url
    ("https://docs.google.com/document/d/" ++ id ++ "/edit") = Some id.
Proof.
  intros Hne Hid. split; [|split].
  - now apply drive_file_url_id.
  - now apply drive_open_url_id.
  - now apply docs_document_url_id.
Qed.

(** The file id that Calibre's [send_book_email] extracts from a Drive link is
    the id itself for the file/d and open?id= forms, for every non-empty id
    over [a-zA-Z0-9_-]. *)
Theorem send_book_email_file_id_round_trip id :
  id <> "" -> all_chars CalibreDrive.is_id_char id = true ->
  CalibreDrive.send_book_email_file_id
    ("https://drive.google.com/file/d/" ++ id ++ "/view") = Some id /\
  CalibreDrive.send_book_email_file_id
    ("https://drive.google.com/open?id=" ++ id) = Some id.
Proof.
  intros Hne Hid. split.
  - now apply calibre_file_url_id.
  - now apply calibre_open_url_id.
Qed.

End DriveUrlFacts.

Module SearchFacts.

Import ZoteroSearch.


Lemma existsb_eqb_in k l : existsb (String.eqb k) l = true <-> In k l.
Proof.
  rewrite existsb_exists. split.
  - intros [x [Hx E]]. apply String.eqb_eq in E. now subst.
  - intros H. exists k. split; [exact H | apply String.eqb_refl].
Qed.

Lemma NoDup_app_single {A} (l : list A) x : NoDup l -> ~ In x l -> NoDup (l ++ [x]).
Proof.
  intros H Hx. apply NoDup_app; auto using NoDup_cons, NoDup_nil.
  - intros y Hy [<-|[]]. contradiction.
Qed.

Lemma add_row_inv st r : seen_inv st -> seen_inv (add_row st r).
Proof.
  destruct st as [res seen]. unfold seen_inv, add_row; simpl. intros [Hs Hn].
  destruct (existsb (String.eqb (sr_key r)) seen) eqn:E; simpl; [auto|].
  split.
  - rewrite map_app, rev_app_distr. simpl. now rewrite Hs.
  - rewrite map_app. apply NoDup_app_single; auto.
    intros Hin. apply in_rev in Hin. rewrite <- Hs in Hin.
    apply existsb_eqb_in in Hin. unfold row_item in Hin; simpl in Hin. congruence.
Qed.

Lemma fold_add_row_inv rows st : seen_inv st -> seen_inv (fold_left add_row rows st).
Proof.
  revert st; induction rows as [|r rows IH]; simpl; auto using add_row_inv.
Qed.

Lemma search_queries_inv execute qs st :
  seen_inv st -> seen_inv (search_queries execute qs st).
Proof.
  revert st; induction qs as [|q qs IH]; intros st H; simpl; auto.
  destruct (execute q) as [rows [e|]]; auto using fold_add_row_inv.
Qed.

Lemma fold_add_row_prov rows st it :
  In it (fst (fold_left add_row rows st)) ->
  In it (fst st) \/ exists r, In r rows /\ it = row_item r.
Proof.
  revert st; induction rows as [|r rows IH]; intros st H; simpl in H; auto.
  apply IH in H as [H|[r' [Hr' ->]]]; [|right; exists r'; simpl; auto].
  destruct st as [res seen]; unfold add_row in H; simpl in H.
  destruct (existsb (String.eqb (sr_key r)) seen); simpl in H; auto.
  apply in_app_or in H as [H|[<-|[]]]; auto.
  right; exists r; simpl; auto.
Qed.

Lemma search_queries_prov execute qs st it :
  In it (fst (search_queries execute qs st)) ->
  In it (fst st) \/
  exists q r, In q qs /\ In r (fst (execute q)) /\ it = row_item r.
Proof.
  revert st; induction qs as [|q qs IH]; intros st H; simpl in H; auto.
  destruct (execute q) as [rows f] eqn:Eq.
  assert (Hf : In it (fst (fold_left add_row rows st)) ->
               In it (fst st) \/
               exists q0 r, In q0 (q :: qs) /\ In r (fst (execute q0)) /\ it = row_item r).
  { intros H'. apply fold_add_row_prov in H' as [H'|[r [Hr ->]]]; auto.
    right. exists q, r. rewrite Eq. simpl. auto. }
  destruct f as [e|]; auto.
  apply IH in H as [H|[q0 [r [Hq [Hr ->]]]]]; auto.
  right. exists q0, r. simpl. auto.
Qed.

Lemma fold_add_row_seen rows st :
  (forall k, In k (snd st) -> In k (snd (fold_left add_row rows st))) /\
  (forall r, In r rows -> In (sr_key r) (snd (fold_left add_row rows st))).
Proof.
  revert st; induction rows as [|r rows IH]; intros st; simpl.
  - split; auto. intros _ [].
  - assert (Hr : In (sr_key r) (snd (add_row st r))).
    { destruct st as [res seen]; unfold add_row; simpl.
      destruct (existsb (String.eqb (sr_key r)) seen) eqn:E; simpl; auto.
      now apply existsb_eqb_in. }
    assert (Hk : forall k, In k (snd st) -> In k (snd (add_row st r))).
    { destruct st as [res seen]; unfold add_row; simpl.
      destruct (existsb (String.eqb (sr_key r)) seen); simpl; auto. }
    destruct (IH (add_row st r)) as [H1 H2]. split.
    + auto.
    + intros r' [<-|Hr']; auto.
Qed.

Lemma search_queries_seen execute qs st :
  (forall q, In q qs -> snd (execute q) = None) ->
  (forall k, In k (snd st) -> In k (snd (search_queries execute qs st))) /\
  (forall q r, In q qs -> In r (fst (execute q)) ->
     In (sr_key r) (snd (search_queries execute qs st))).
Proof.
  revert st; induction qs as [|q qs IH]; intros st Hok; simpl.
  - split; auto. intros _ _ [].
  - specialize (Hok q (or_introl eq_refl)) as Hq.
    destruct (execute q) as [rows f] eqn:Eq. simpl in Hq; subst f.
    destruct (IH (fold_left add_row rows st)) as [H1 H2].
    { intros q' Hq'. apply Hok. now right. }
    destruct (fold_add_row_seen rows st) as [F1 F2].
    split; auto.
    intros q' r [<-|Hq'] Hr.
    + rewrite Eq in Hr. simpl in Hr. apply H1, F2, Hr.
    + exact (H2 q' r Hq' Hr).
Qed.

Lemma fold_add_row_prefix rows st :
  exists l, fst (fold_left add_row rows st) = (fst st ++ l)%list.
Proof.
  revert st; induction rows as [|r rows IH]; intros st; simpl.
  - exists []. now rewrite app_nil_r.
  - destruct (IH (add_row st r)) as [l Hl]. rewrite Hl.
    destruct st as [res seen]; unfold add_row; simpl.
    destruct (existsb (String.eqb (sr_key r)) seen); simpl.
    + now exists l.
    + exists (row_item r :: l). now rewrite <- app_assoc.
Qed.

Lemma search_queries_prefix execute qs st :
  exists l, fst (search_queries execute qs st) = (fst st ++ l)%list.
Proof.
  revert st; induction qs as [|q qs IH]; intros st; simpl.
  - exists []. now rewrite app_nil_r.
  - destruct (execute q) as [rows [e|]];
      destruct (fold_add_row_prefix rows st) as [l1 H1].
    + now exists l1.
    + destruct (IH (fold_left add_row rows st)) as [l2 H2].
      exists (l1 ++ l2)%list. now rewrite H2, H1, app_assoc.
Qed.

Lemma search_queries_app execute pre rest st :
  exists l, fst (search_queries execute (pre ++ rest) st)
            = (fst (search_queries execute pre st) ++ l)%list.
Proof.
  revert st; induction pre as [|q pre IH]; intros st; simpl.
  - apply search_queries_prefix.
  - destruct (execute q) as [rows [e|]].
    + exists []. now rewrite app_nil_r.
    + apply IH.
Qed.

Lemma search_queries_stop execute pre q post st rows e :
  execute q = (rows, Some e) ->
  search_queries execute (pre ++ q :: post) st
  = search_queries execute (pre ++ [q]) st.
Proof.
  intros Eq. revert st; induction pre as [|q' pre IH]; intros st; simpl.
  - now rewrite Eq.
  - destruct (execute q') as [rows' [e'|]]; auto.
Qed.

Lemma search_sqlite_db_nodup execute queries :
  NoDup (map Zotero.key (search_sqlite_db execute queries)).
Proof.
  unfold search_sqlite_db.
  assert (Hinv : seen_inv (search_queries execute queries ([], [])))
    by (apply search_queries_inv; split; simpl; auto using NoDup_nil).
  exact (proj2 Hinv).
Qed.

(** [search_sqlite_db] keeps no key twice, builds every item from a row
    returned for one of the queries, and, when no query raises, keeps the key
    of every returned row. *)
Theorem search_sqlite_db_unique_keys execute queries :
  let results := search_sqlite_db execute queries in
  NoDup (map Zotero.key results) /\
  (forall it, In it results ->
     exists q r, In q queries /\ In r (fst (execute q)) /\ it = row_item r) /\
  ((forall q, In q queries -> snd (execute q) = None) ->
   forall q r, In q queries -> In r (fst (execute q)) ->
   In (sr_key r) (map Zotero.key results)).
Proof.
  intros results. unfold results, search_sqlite_db.
  assert (Hinv : seen_inv (search_queries execute queries ([], [])))
    by (apply search_queries_inv; split; simpl; auto using NoDup_nil).
  destruct Hinv as [Hs Hn].
  split; [exact Hn|]. split.
  - intros it Hit. apply search_queries_prov in Hit as [[]|H]; exact H.
  - intros Hok q r Hq Hr.
    destruct (search_queries_seen execute queries ([], []) Hok) as [_ H2].
    specialize (H2 q r Hq Hr). rewrite Hs in H2. now apply in_rev.
Qed.

(** The results of [search_sqlite_db] for a query list extend those of its
    prefixes; after a query that raises, no later query is run. *)
Theorem search_sqlite_db_exception_keeps_earlier execute pre q post :
  (exists l, search_sqlite_db execute (pre ++ q :: post)
             = (search_sqlite_db execute pre ++ l)%list) /\
  (forall rows e, execute q = (rows, Some e) ->
   search_sqlite_db execute (pre ++ q :: post)
   = search_sqlite_db execute (pre ++ [q])).
Proof.
  unfold search_sqlite_db. split.
  - apply search_queries_app.
  - intros rows e Eq. now rewrite (search_queries_stop execute pre q post _ rows e Eq).
Qed.


Lemma keep_api_item_inv st it : api_inv st -> api_inv (keep_api_item st it).
Proof.
  destruct st as [res seen]. unfold api_inv, seen_inv, keep_api_item; simpl.
  intros [[Hs Hn] Ht].
  destruct (negb (Zotero.note_or_attachment it)
            && negb (existsb (String.eqb (Zotero.key it)) seen)) eqn:E; simpl;
    [|auto].
  apply andb_prop in E as [E1 E2]. apply negb_true_iff in E1, E2.
  split; [split|].
  - rewrite map_app, rev_app_distr. simpl. now rewrite Hs.
  - rewrite map_app. apply NoDup_app_single; auto.
    intros Hin. apply in_rev in Hin. rewrite <- Hs in Hin.
    apply existsb_eqb_in in Hin. congruence.
  - intros it' Hit. apply in_app_or in Hit as [H|[<-|[]]]; auto.
Qed.

Lemma fold_keep_inv items st : api_inv st -> api_inv (fold_left keep_api_item items st).
Proof.
  revert st; induction items as [|it items IH]; simpl; auto using keep_api_item_inv.
Qed.

Lemma fold_keep_prov items st it :
  In it (fst (fold_left keep_api_item items st)) -> In it (fst st) \/ In it items.
Proof.
  revert st; induction items as [|x items IH]; intros st H; simpl in H; auto.
  apply IH in H as [H|H]; [|right; simpl; auto].
  destruct st as [res seen]; unfold keep_api_item in H; simpl in H.
  destruct (negb (Zotero.note_or_attachment x)
            && negb (existsb (String.eqb (Zotero.key x)) seen)); simpl in H; auto.
  apply in_app_or in H as [H|[<-|[]]]; auto. right; simpl; auto.
Qed.

Lemma api_queries_ok zot_items qs st res :
  api_queries zot_items qs st = Ok res ->
  api_inv st -> api_inv res /\
  forall it, In it (fst res) -> In it (fst st) \/
    exists q items, In q qs /\ zot_items q = Ok items /\ In it items.
Proof.
  revert st; induction qs as [|q qs IH]; intros st E Hst; simpl in E.
  - injection E as <-. auto.
  - destruct (zot_items q) as [items|e] eqn:Eq; [|discriminate].
    destruct (IH _ E (fold_keep_inv items st Hst)) as [Hres Hprov].
    split; [exact Hres|].
    intros it Hit. apply Hprov in Hit as [Hit|[q' [items' [Hq' [Eq' Hi']]]]].
    + apply fold_keep_prov in Hit as [Hit|Hit]; auto.
      right. exists q, items. simpl. auto.
    + right. exists q', items'. simpl. auto.
Qed.

Lemma api_queries_err zot_items qs st q e :
  In q qs -> zot_items q = Err e ->
  exists e', api_queries zot_items qs st = Err e'.
Proof.
  revert st; induction qs as [|q0 qs IH]; intros st Hq Eq; [destruct Hq|].
  simpl. destruct Hq as [<-|Hq].
  - rewrite Eq. eauto.
  - destruct (zot_items q0) as [items|e0]; eauto.
Qed.

Lemma search_zotero_api_nodup zot_items queries :
  NoDup (map Zotero.key (search_zotero_api zot_items queries)).
Proof.
  unfold search_zotero_api.
  destruct (api_queries zot_items queries ([], [])) as [[res seen]|e] eqn:E;
    [|constructor].
  destruct (api_queries_ok _ _ _ _ E) as [[[_ Hn] _] _];
    [split; [split|]; simpl; auto using NoDup_nil; intros _ []|].
  exact Hn.
Qed.

(** [search_zotero_api] keeps no key twice and no note or attachment, takes
    every item from the answer to one of the queries, and gives [] as soon as
    one API call raises. *)
Theorem search_zotero_api_filter zot_items queries :
  let results := search_zotero_api zot_items queries in
  NoDup (map Zotero.key results) /\
  (forall it, In it results ->
     Zotero.note_or_attachment it = false /\
     exists q items, In q queries /\ zot_items q = Ok items /\ In it items) /\
  (forall q e, In q queries -> zot_items q = Err e -> results = []).
Proof.
  intros results. split; [apply search_zotero_api_nodup|].
  unfold results, search_zotero_api.
  split.
  - destruct (api_queries zot_items queries ([], [])) as [[res seen]|e] eqn:E;
      [|intros _ []].
    destruct (api_queries_ok _ _ _ _ E) as [[_ Ht] Hprov];
      [split; [split|]; simpl; auto using NoDup_nil; intros _ []|].
    intros it Hit. split; [exact (Ht it Hit)|].
    destruct (Hprov it Hit) as [[]|H]. exact H.
  - intros q e Hq Eq.
    destruct (api_queries_err zot_items queries ([], []) q e Hq Eq) as [e' ->].
    reflexivity.
Qed.

Lemma search_local_sqlite_nodup path_exists execute qs :
  NoDup (map Zotero.key (search_local_sqlite path_exists execute qs)).
Proof.
  unfold search_local_sqlite.
  destruct (first_existing path_exists local_paths) as [p|]; [|constructor].
  destruct (Zotero.nonempty (search_sqlite_db (execute p) qs)); [|constructor].
  apply search_sqlite_db_nodup.
Qed.

Lemma search_drive_sqlite_outcome path_exists execute google_creds drive_url_of
  build download qs :
  (forall r, search_drive_sqlite path_exists execute google_creds drive_url_of
               build download qs = Ok r -> NoDup (map Zotero.key r)) /\
  (forall e, search_drive_sqlite path_exists execute google_creds drive_url_of
               build download qs = Err e -> google_creds = true /\ build = Err e).
Proof.
  unfold search_drive_sqlite.
  destruct google_creds; simpl;
    [|split; [intros r E; injection E as <-; constructor | discriminate]].
  destruct (truthy (drive_url_of "zotero.sqlite")) as [u|];
    [|split; [intros r E; injection E as <-; constructor | discriminate]].
  destruct (truthy (ZoteroDrive.extract_file_id_from_drive_url u)) as [fid|];
    [|split; [intros r E; injection E as <-; constructor | discriminate]].
  destruct build as [[]|e0].
  - destruct (truthy (download fid)) as [tp|];
      [|split; [intros r E; injection E as <-; constructor | discriminate]].
    destruct (path_exists tp);
      [|split; [intros r E; injection E as <-; constructor | discriminate]].
    split; [|discriminate].
    intros r E; injection E as <-. apply search_sqlite_db_nodup.
  - split; [discriminate|]. intros e E; injection E as <-. auto.
Qed.

(** The items of [find_papers_by_title] have distinct keys; its only error is
    the one of [build] for the Drive service, with Google credentials. *)
Theorem find_papers_by_title_outcome path_exists execute google_creds
  drive_url_of build download zot_items title_query :
  let outcome := find_papers_by_title path_exists execute google_creds
                   drive_url_of build download zot_items title_query in
  (forall r, outcome = Ok r -> NoDup (map Zotero.key r)) /\
  (forall e, outcome = Err e -> google_creds = true /\ build = Err e).
Proof.
  intros outcome. unfold outcome, find_papers_by_title.
  set (qs := match title_query with inl q => [q] | inr qs => qs end).
  destruct (Zotero.nonempty (search_local_sqlite path_exists execute qs)).
  { split; [|discriminate]. intros r E; injection E as <-.
    apply search_local_sqlite_nodup. }
  destruct (search_drive_sqlite_outcome path_exists execute google_creds
              drive_url_of build download qs) as [D1 D2].
  destruct (search_drive_sqlite path_exists execute google_creds drive_url_of
              build download qs) as [res|e] eqn:Ed.
  - destruct (Zotero.nonempty res).
    + split; [|discriminate]. intros r E; injection E as <-. auto.
    + destruct (Zotero.nonempty (search_zotero_api zot_items qs));
        (split; [|discriminate]); intros r E; injection E as <-; [|constructor].
      apply search_zotero_api_nodup.
  - split; [discriminate|]. intros e' E; injection E as <-. auto.
Qed.

End SearchFacts.

Module CollectionFacts.

Import ZoteroSearch ZoteroCollections.


(** The html output of a non-empty collection list without output file is
    the printed page, and it holds every name and key verbatim. *)
Theorem display_collections_html_unescaped pdf_engine collections c :
  In c collections ->
  display_collections pdf_engine collections Html None
    = Ok [Print (collections_html collections)] /\
  str_contains (collections_html collections)
    ("<p><strong>Name:</strong> " ++ coll_name c ++ "</p>") = true /\
  str_contains (collections_html collections)
    ("<p><strong>Key:</strong> " ++ coll_key c ++ "</p>") = true.
Proof.
  intros Hc. split; [|split].
  - destruct collections; [destruct Hc | reflexivity].
  - unfold collections_html. apply str_contains_concat.
    apply in_or_app; right. apply in_or_app; left.
    apply in_flat_map. exists c. split; [exact Hc|]. simpl; auto.
  - unfold collections_html. apply str_contains_concat.
    apply in_or_app; right. apply in_or_app; left.
    apply in_flat_map. exists c. split; [exact Hc|]. simpl; auto.
Qed.

End CollectionFacts.

Module DoiFacts.

Import DriveUrlFacts ZoteroDoi.

Lemma split_on_fuel_nonnil f sep s : split_on_fuel f sep s <> [].
Proof.
  revert s; induction f as [|f IH]; intros s; simpl; [discriminate|].
  destruct s as [|c s]; [discriminate|].
  destruct (strip_prefix sep (String c s)); [discriminate|].
  destruct (split_on_fuel f sep s); discriminate.
Qed.

Lemma strip_prefix_of_is_prefix_false p s :
  is_prefix p s = false -> strip_prefix p s = None.
Proof.
  destruct (strip_prefix p s) eqn:E; [|reflexivity].
  apply strip_prefix_some_is_prefix in E. congruence.
Qed.

Lemma split_on_fuel_no_sep f sep s :
  sep <> "" -> str_contains s sep = false -> split_on_fuel f sep s = [s].
Proof.
  intros Hsep. revert s; induction f as [|f IH]; intros s Hs; [reflexivity|].
  destruct s as [|c s]; [reflexivity|].
  simpl in Hs. apply orb_false_iff in Hs as [H1 H2].
  simpl. rewrite (strip_prefix_of_is_prefix_false _ _ H1), (IH s H2). reflexivity.
Qed.

(** single-character separators *)
Lemma split_on_fuel_app c x t f :
  all_chars (fun a => negb (Ascii.eqb a c)) x = true ->
  split_on_fuel (String.length x + f) (String c "") (x ++ t)
  = match split_on_fuel f (String c "") t with
    | [] => [x]
    | p :: ps => (x ++ p) :: ps
    end.
Proof.
  induction x as [|a x IH]; intros Hx; simpl.
  - destruct (split_on_fuel f (String c "") t) eqn:E; [|reflexivity].
    exfalso; eapply split_on_fuel_nonnil; eauto.
  - simpl in Hx. apply andb_prop in Hx as [Ha Hx].
    rewrite (eqb_false_of_neg _ _ Ha). rewrite (IH Hx).
    destruct (split_on_fuel f (String c "") t) eqn:E; [|reflexivity].
    exfalso; eapply split_on_fuel_nonnil; eauto.
Qed.

Lemma split_step_nomatch f sep c s :
  strip_prefix sep (String c s) = None ->
  split_on_fuel (S f) sep (String c s)
  = match split_on_fuel f sep s with
    | [] => [String c ""]
    | p :: ps => String c p :: ps
    end.
Proof. intros H. cbn [split_on_fuel]. now rewrite H. Qed.

Lemma split_step_match f sep s rest :
  s <> "" -> strip_prefix sep s = Some rest ->
  split_on_fuel (S f) sep s = "" :: split_on_fuel f sep rest.
Proof.
  intros Hs H. destruct s as [|c s]; [congruence|]. cbn [split_on_fuel]. now rewrite H.
Qed.

Lemma str_length_app a b : String.length (a ++ b) = String.length a + String.length b.
Proof. induction a as [|c a IH]; simpl; auto. Qed.

Lemma no_char_not_contains c x :
  all_chars (fun a => negb (Ascii.eqb a c)) x = true ->
  str_contains x (String c "") = false.
Proof.
  induction x as [|a x IH]; simpl; intros H; [reflexivity|].
  apply andb_prop in H as [Ha H].
  rewrite (eqb_false_of_neg _ _ Ha). simpl. apply IH, H.
Qed.

Lemma split_single_no_sep c x :
  all_chars (fun a => negb (Ascii.eqb a c)) x = true ->
  split_on (String c "") x = [x].
Proof.
  intros H. apply split_on_fuel_no_sep; [discriminate|]. now apply no_char_not_contains.
Qed.

Lemma hd_split_cut c x t :
  all_chars (fun a => negb (Ascii.eqb a c)) x = true ->
  hd "" (split_on (String c "") (x ++ String c t)) = x.
Proof.
  intros H. unfold split_on. rewrite str_length_app.
  replace (S (String.length x + String.length (String c t)))
    with (String.length x + S (String.length (String c t))) by lia.
  rewrite (split_on_fuel_app c x _ _ H).
  rewrite (split_step_match _ _ _ t); [| discriminate | simpl; now rewrite Ascii.eqb_refl].
  simpl. apply str_app_nil_r.
Qed.

Lemma doi_of_doi_org_url_spec d tail :
  all_chars (fun c => negb (Ascii.eqb c "#") && negb (Ascii.eqb c "?")) d = true ->
  str_contains (d ++ tail) "doi.org/" = false ->
  (tail = "" \/ exists y, tail = String "#" y \/ tail = String "?" y) ->
  doi_of_doi_org_url ("https://doi.org/" ++ d ++ tail) = d.
Proof.
  intros Hd Hno Ht.
  assert (Hh : all_chars (fun a => negb (Ascii.eqb a "#")) d = true)
    by (eapply all_chars_impl; [|exact Hd]; intros c Hc;
        now apply andb_prop in Hc as [Hc _]).
  assert (Hq : all_chars (fun a => negb (Ascii.eqb a "?")) d = true)
    by (eapply all_chars_impl; [|exact Hd]; intros c Hc;
        now apply andb_prop in Hc as [_ Hc]).
  unfold doi_of_doi_org_url.
  assert (Hs : split_on "doi.org/" ("https://doi.org/" ++ d ++ tail)
               = ["https://"; d ++ tail]).
  { unfold split_on.
    change (String.length ("https://doi.org/" ++ d ++ tail))
      with (16 + String.length (d ++ tail)).
    cbn [String.append Nat.add].
    repeat (rewrite split_step_nomatch; [|reflexivity]).
    erewrite split_step_match; [| discriminate | reflexivity].
    rewrite split_on_fuel_no_sep; [reflexivity | discriminate | exact Hno]. }
  rewrite Hs. simpl last.
  destruct Ht as [->|[y [->| ->]]].
  - rewrite str_app_nil_r, (split_single_no_sep _ _ Hh). simpl hd.
    rewrite (split_single_no_sep _ _ Hq). reflexivity.
  - rewrite (hd_split_cut _ _ _ Hh), (split_single_no_sep _ _ Hq). reflexivity.
  - unfold split_on at 2. rewrite str_length_app.
    replace (S (String.length d + String.length (String "?" y)))
      with (String.length d + S (String.length (String "?" y))) by lia.
    rewrite (split_on_fuel_app "#" d _ _ Hh).
    change (String.length (String "?" y)) with (S (String.length y)).
    rewrite split_step_nomatch; [|reflexivity].
    destruct (split_on_fuel (S (String.length y)) (String "#" "") y) as [|p ps] eqn:E;
      [exfalso; eapply split_on_fuel_nonnil; eauto|].
    simpl hd. apply hd_split_cut, Hq.
Qed.

(** Without DOI field, a doi.org URL gives the part after [doi.org/] up to
    the first [#] or [?]. *)
Theorem extract_doi_doi_org_url doi_field extra d tail :
  truthy doi_field = None ->
  all_chars (fun c => negb (Ascii.eqb c "#") && negb (Ascii.eqb c "?")) d = true ->
  str_contains (d ++ tail) "doi.org/" = false ->
  (tail = "" \/ exists y, tail = String "#" y \/ tail = String "?" y) ->
  extract_doi (Some (mk_item_data doi_field
                       (Some ("https://doi.org/" ++ d ++ tail)) extra))
  = Some d.
Proof.
  intros Hdoi Hd Hno Ht. unfold extract_doi. cbn [data_DOI data_url data_extra].
  rewrite Hdoi.
  assert (Hu : truthy (Some ("https://doi.org/" ++ d ++ tail))
               = Some ("https://doi.org/" ++ d ++ tail)) by reflexivity.
  assert (Hc : str_contains ("https://doi.org/" ++ d ++ tail) "doi.org/" = true)
    by reflexivity.
  rewrite Hu, Hc, doi_of_doi_org_url_spec; auto.
Qed.

Lemma lower_ascii_is_ws c : is_ws (lower_ascii c) = is_ws c.
Proof.
  destruct c as [b0 b1 b2 b3 b4 b5 b6 b7].
  destruct b0, b1, b2, b3, b4, b5, b6, b7; vm_compute; reflexivity.
Qed.

Lemma lower_ascii_newline c :
  Ascii.eqb (lower_ascii c) "010" = Ascii.eqb c "010".
Proof.
  destruct c as [b0 b1 b2 b3 b4 b5 b6 b7].
  destruct b0, b1, b2, b3, b4, b5, b6, b7; vm_compute; reflexivity.
Qed.

Lemma lower_app a b : lower (a ++ b) = (lower a ++ lower b).
Proof. induction a as [|c a IH]; simpl; [reflexivity | now rewrite IH]. Qed.

Lemma lower_length a : String.length (lower a) = String.length a.
Proof. induction a as [|c a IH]; simpl; auto. Qed.

Lemma str_drop_app a b : str_drop (String.length a) (a ++ b) = b.
Proof. induction a as [|c a IH]; simpl; auto. Qed.

Lemma rstrip_app a b : rstrip b <> "" -> rstrip (a ++ b) = (a ++ rstrip b).
Proof.
  intros Hb. induction a as [|c a IH]; [reflexivity|].
  simpl. rewrite IH. destruct (a ++ rstrip b) eqn:E; [|reflexivity].
  destruct a; simpl in E; [congruence | discriminate].
Qed.

Lemma rstrip_cons_nonempty c s :
  rstrip s <> "" -> rstrip (String c s) = String c (rstrip s).
Proof. intros H. simpl. destruct (rstrip s); congruence. Qed.

Lemma rstrip_no_ws d :
  d <> "" -> all_chars (fun c => negb (is_ws c)) d = true -> rstrip d = d.
Proof.
  induction d as [|c d IH]; intros Hne H; [congruence|].
  simpl in H. apply andb_prop in H as [Hc H].
  destruct d as [|c' d].
  - simpl. now destruct (is_ws c).
  - rewrite rstrip_cons_nonempty; rewrite IH by (discriminate || exact H);
      [reflexivity | discriminate].
Qed.

Lemma printable_not_ws c :
  Nat.leb 33 (nat_of_ascii c) && Nat.leb (nat_of_ascii c) 126 = true ->
  negb (is_ws c) = true.
Proof.
  destruct c as [b0 b1 b2 b3 b4 b5 b6 b7].
  destruct b0, b1, b2, b3, b4, b5, b6, b7; vm_compute;
    intro H; first [discriminate H | reflexivity].
Qed.

Lemma printable_not_newline c :
  Nat.leb 33 (nat_of_ascii c) && Nat.leb (nat_of_ascii c) 126 = true ->
  negb (Ascii.eqb c "010") = true.
Proof.
  intros H. apply andb_prop in H as [H1 _]. apply Nat.leb_le in H1.
  destruct (Ascii.eqb_spec c "010"); [subst c; change (nat_of_ascii "010") with 10 in H1; lia | reflexivity].
Qed.

Lemma all_chars_app p a b :
  all_chars p (a ++ b) = all_chars p a && all_chars p b.
Proof. induction a as [|c a IH]; simpl; [reflexivity | now rewrite IH, andb_assoc]. Qed.

Lemma lower_all_chars (q r : ascii -> bool) a :
  (forall c, q (lower_ascii c) = true -> r c = true) ->
  all_chars q (lower a) = true -> all_chars r a = true.
Proof.
  intros H. induction a as [|c a IH]; simpl; [reflexivity|].
  intros Hq. apply andb_prop in Hq as [H1 H2]. now rewrite (H c H1), IH.
Qed.

Lemma split_first_line x rest :
  all_chars (fun a => negb (Ascii.eqb a "010")) x = true ->
  (rest = "" \/ exists y, rest = (newline ++ y)) ->
  exists ps, split_on newline (x ++ rest) = x :: ps.
Proof.
  intros Hx Hr. unfold split_on. rewrite str_length_app.
  replace (S (String.length x + String.length rest))
    with (String.length x + S (String.length rest)) by lia.
  unfold newline. rewrite (split_on_fuel_app "010" x _ _ Hx).
  destruct Hr as [->|[y ->]].
  - simpl. exists []. now rewrite str_app_nil_r.
  - rewrite (split_step_match _ _ _ y); [| discriminate | reflexivity].
    rewrite str_app_nil_r. eauto.
Qed.

(** Without DOI field and URL, an extra field whose first line is
    [DOI: d] (prefix in any case) gives [d]. *)
Theorem extract_doi_extra_line doi_field p d rest :
  truthy doi_field = None ->
  lower p = "doi:" ->
  all_chars (fun c => Nat.leb 33 (nat_of_ascii c) && Nat.leb (nat_of_ascii c) 126) d = true ->
  d <> "" ->
  (rest = "" \/ exists y, rest = (newline ++ y)) ->
  extract_doi (Some (mk_item_data doi_field None (Some (p ++ " " ++ d ++ rest))))
  = Some d.
Proof.
  intros Hdoi Hp Hd Hne Hr.
  assert (Hlen : String.length p = 4) by (now rewrite <- lower_length, Hp).
  assert (Hdws : all_chars (fun c => negb (is_ws c)) d = true)
    by (eapply all_chars_impl; [apply printable_not_ws | exact Hd]).
  assert (Hdnl : all_chars (fun c => negb (Ascii.eqb c "010")) d = true)
    by (eapply all_chars_impl; [apply printable_not_newline | exact Hd]).
  assert (Hpnl : all_chars (fun c => negb (Ascii.eqb c "010")) p = true).
  { apply (lower_all_chars (fun c => negb (Ascii.eqb c "010"))).
    - intros c Hc. now rewrite <- lower_ascii_newline.
    - now rewrite Hp. }
  set (x := (p ++ " " ++ d)).
  assert (Hx : all_chars (fun c => negb (Ascii.eqb c "010")) x = true)
    by (unfold x; rewrite !all_chars_app, Hpnl, Hdnl; reflexivity).
  destruct (split_first_line x rest Hx Hr) as [ps Hs].
  assert (Hstrip : strip x = x).
  { unfold x, strip.
    destruct p as [|c p']; [discriminate|].
    assert (Hc : is_ws c = false).
    { injection Hp as Hc _. rewrite <- lower_ascii_is_ws, Hc. reflexivity. }
    assert (Hl : lstrip (String c p' ++ " " ++ d) = (String c p' ++ " " ++ d))
      by (simpl; now rewrite Hc).
    rewrite Hl, (rstrip_app (String c p') (" " ++ d)).
    - f_equal. rewrite (rstrip_app " " d); [|rewrite rstrip_no_ws; auto].
      now rewrite rstrip_no_ws.
    - rewrite (rstrip_app " " d); [discriminate|rewrite rstrip_no_ws; auto]. }
  assert (Hline : doi_line (x :: ps) = Some d).
  { cbn [doi_line]. rewrite Hstrip.
    assert (Hl : is_prefix "doi:" (lower x) = true)
      by (unfold x; rewrite lower_app, Hp; apply is_prefix_app, is_prefix_refl).
    rewrite Hl. unfold x. rewrite <- Hlen, str_drop_app.
    f_equal. unfold strip.
    change (lstrip (" " ++ d)) with (lstrip d).
    assert (Hld : lstrip d = d).
    { destruct d as [|c d']; [congruence|].
      simpl in Hdws. apply andb_prop in Hdws as [Hc _].
      apply negb_true_iff in Hc. simpl. now rewrite Hc. }
    rewrite Hld. now apply rstrip_no_ws. }
  unfold extract_doi. cbn [data_DOI data_url data_extra]. rewrite Hdoi.
  change (truthy None) with (@None string).
  assert (Ht : truthy (Some (p ++ " " ++ d ++ rest)) = Some (x ++ rest)).
  { unfold x. rewrite <- !str_app_assoc.
    destruct p as [|c p']; [discriminate|]. reflexivity. }
  rewrite Ht, Hs, Hline. reflexivity.
Qed.

End DoiFacts.

Module AttachmentFacts.

Import DriveUrlFacts DoiFacts Calibre CalibreAttachments.

Lemma lower_ascii_idem c : lower_ascii (lower_ascii c) = lower_ascii c.
Proof.
  destruct c as [b0 b1 b2 b3 b4 b5 b6 b7].
  destruct b0, b1, b2, b3, b4, b5, b6, b7; vm_compute; reflexivity.
Qed.

Lemma lower_idem s : lower (lower s) = lower s.
Proof. induction s as [|c s IH]; simpl; [reflexivity | now rewrite lower_ascii_idem, IH]. Qed.

Lemma substring_whole t : substring 0 (String.length t) t = t.
Proof. induction t as [|c t IH]; simpl; [reflexivity | now rewrite IH]. Qed.

Lemma substring_app_r s t n : substring (String.length s) n (s ++ t) = substring 0 n t.
Proof. induction s as [|c s IH]; simpl; [reflexivity | exact IH]. Qed.

Lemma ends_with_app s t : ends_with t (s ++ t) = true.
Proof.
  unfold ends_with. rewrite str_length_app.
  replace (String.length s + String.length t - String.length t)
    with (String.length s) by lia.
  rewrite substring_app_r, substring_whole, String.eqb_refl.
  apply andb_true_intro; split; [apply Nat.leb_le; lia | reflexivity].
Qed.

Lemma attachment_of_extension resolve_posix drive_url_by_filename shared_search
    google_creds b fmt :
  ends_with ("." ++ lower (fst fmt))
    (lower (local_path (attachment_of resolve_posix drive_url_by_filename
                          shared_search google_creds b fmt))) = true.
Proof.
  unfold attachment_of. cbv zeta.
  match goal with
  | |- context [if ends_with ?e (lower ?l) then _ else _] =>
      destruct (ends_with e (lower l)) eqn:E
  end; cbn [local_path]; [exact E|].
  rewrite lower_app. change (lower ("." ++ ?x)) with ("." ++ lower x).
  rewrite lower_idem. apply ends_with_app.
Qed.

Lemma attachment_of_no_creds resolve_posix drive_url_by_filename shared_search b fmt :
  drive_url (attachment_of resolve_posix drive_url_by_filename shared_search false b fmt)
  = None.
Proof. reflexivity. Qed.

(** [get_attachment_paths] gives one entry per format, whose local path ends
    with the lower-cased extension, and no Drive URL without credentials. *)
Theorem get_attachment_paths_formats resolve_posix drive_url_by_filename shared_search
    google_creds b :
  Forall2
    (fun fmt a =>
       ends_with ("." ++ lower (fst fmt)) (lower (local_path a)) = true /\
       (google_creds = false -> drive_url a = None))
    (formats b)
    (get_attachment_paths resolve_posix drive_url_by_filename shared_search
       google_creds b).
Proof.
  unfold get_attachment_paths. induction (formats b) as [|fmt fs IH]; constructor; auto.
  split; [apply attachment_of_extension|].
  intros ->. apply attachment_of_no_creds.
Qed.

End AttachmentFacts.

(** ** Witnesses *)

Lemma report_order_is_fetch_order_witness :
  Permutation (rev (enumerate example_books)) (enumerate example_books)
  /\ Permutation (rev (enumerate example_items)) (enumerate example_items)
  /\ Calibre.display_books example_book_text example_book_html "Library" [] [] []
       example_pdf example_books Html None (rev (enumerate example_books))
     = Calibre.display_books example_book_text example_book_html "Library" [] [] []
       example_pdf example_books Html None (enumerate example_books)
  /\ Zotero.display_items example_item_text example_item_html (Some "Topology")
       "Library" [] [] [] example_pdf example_items Text None
       (rev (enumerate example_items))
     = Zotero.display_items example_item_text example_item_html (Some "Topology")
       "Library" [] [] [] example_pdf example_items Text None (enumerate example_items).
Proof.
  assert (Hb : Permutation (rev (enumerate example_books)) (enumerate example_books))
    by (apply Permutation_sym, Permutation_rev).
  assert (Hi : Permutation (rev (enumerate example_items)) (enumerate example_items))
    by (apply Permutation_sym, Permutation_rev).
  destruct (report_order_is_fetch_order example_book_text example_book_html
              example_item_text example_item_html (Some "Topology") "Library"
              [] [] [] example_pdf) as [Hc Hz].
  split; [exact Hb|]. split; [exact Hi|].
  split; [apply (proj2 (proj2 (Hc _ _ Hb))) | apply (proj2 (proj2 (Hz _ _ Hi)))].
Defined.

Lemma format_failure_is_placeholder_witness :
  Permutation (rev (enumerate example_books)) (enumerate example_books)
  /\ Permutation (rev (enumerate example_items)) (enumerate example_items)
  /\ (forall h, exists pdf, example_pdf h = Ok pdf)
  /\ exit_code (Calibre.display_books example_book_text example_book_html "Library"
       [] [] [] example_pdf example_books Pdf None (rev (enumerate example_books))) = 0
  /\ exit_code (Zotero.display_items example_item_text example_item_html
       (Some "Topology") "Library" [] [] [] example_pdf example_items Pdf None
       (rev (enumerate example_items))) = 0.
Proof.
  assert (Hb : Permutation (rev (enumerate example_books)) (enumerate example_books))
    by (apply Permutation_sym, Permutation_rev).
  assert (Hi : Permutation (rev (enumerate example_items)) (enumerate example_items))
    by (apply Permutation_sym, Permutation_rev).
  assert (Hp : forall h, exists pdf, example_pdf h = Ok pdf)
    by (intro h; eexists; reflexivity).
  destruct (format_failure_is_placeholder example_book_text example_book_html
              example_item_text example_item_html (Some "Topology") "Library"
              [] [] [] example_pdf example_books example_items _ _ Hb Hi)
    as (_ & _ & _ & _ & Hexit).
  split; [exact Hb|]. split; [exact Hi|]. split; [exact Hp|].
  exact (Hexit Hp Pdf None).
Defined.

Lemma source_priority_first_hit_witness :
  let db := Calibre.path_join example_library "metadata.db" in
  let drive := Calibre.mk_drive_view [("Calibre Library", Some "F1")] None None in
  let catalog := fun (d : Calibre.db_source) =>
    match d with
    | Calibre.LocalDb _ => []
    | Calibre.DriveDb _ => [sample_book 1 "Algebra" "2024-05-05"]
    end in
  String.eqb db db = true
  /\ calibre_locate_books example_library (fun p => String.eqb p db) true drive catalog
     = (Ok [], [LocalFile])
  /\ (fun _ : string => false) db = false
  /\ (let '(r, consulted) :=
        calibre_locate_books example_library (fun _ => false) true drive catalog in
      consulted = [LocalFile; DriveFile]
      /\ (forall bs, r = Ok bs ->
            exists file_id, bs = catalog (Calibre.DriveDb file_id))).
Proof.
  intros db drive catalog.
  assert (Ht : String.eqb db db = true) by apply String.eqb_refl.
  split; [exact Ht|].
  split; [exact (proj1 (proj2 source_priority_first_hit) example_library
                  (fun p => String.eqb p db) true drive catalog Ht)|].
  split; [reflexivity|].
  exact (proj2 (proj2 source_priority_first_hit) example_library
           (fun _ => false) true drive catalog eq_refl).
Defined.

Lemma random_selection_logged_before_send_witness :
  let b5 := sample_book 5 "Graphs" "2024-03-03" in
  let b7 := sample_book 7 "Topology" "2024-02-02" in
  let fail := fun (_ : Calibre.book) (_ : string) => @Err unit "SMTPAuthenticationError" in
  Calibre.select_random_book [b5; b7] "7
" 0 = (Some b5, "7
5
")
  /\ Calibre.main_random_send [b5; b7] "7
" 0 fail ["x@example.org"] = ("7
5
", 1)
  /\ In "5" (Calibre.read_sent_ids ("7
5
" ++ "9
")).
Proof.
  intros b5 b7 fail.
  assert (Hs : Calibre.select_random_book [b5; b7] "7
" 0 = (Some b5, "7
5
")) by (vm_compute; reflexivity).
  assert (Hm : Calibre.main_random_send [b5; b7] "7
" 0 fail ["x@example.org"] = ("7
5
", 1)) by (vm_compute; reflexivity).
  split; [exact Hs|]. split; [exact Hm|].
  destruct (random_selection_logged_before_send _ _ _ _ _ Hs) as (_ & _ & _ & Hnext).
  exact (proj1 (Hnext (or_intror (ex_intro _ "7" eq_refl)) fail ["x@example.org"] _ _ Hm
                  "9
")).
Defined.

Lemma source_failures_handling_witness :
  let db := Calibre.path_join example_library "metadata.db" in
  let nothing := Calibre.mk_drive_view [("Calibre Library", None)] None None in
  let failing := Calibre.mk_drive_view [] None (Some "HttpError 403") in
  Calibre.drive_failure nothing = None
  /\ Calibre.first_folder_copy (Calibre.calibre_folders nothing) = None
  /\ Calibre.anywhere_copy nothing = None
  /\ Calibre.connect_to_calibre_db example_library (fun _ => false) true nothing
     = (Err (Calibre.not_found_message db), [LocalFile; DriveFile])
  /\ Calibre.drive_failure failing = Some "HttpError 403"
  /\ Calibre.connect_to_calibre_db example_library (fun _ => false) true failing
     = (Err ("Could not find or download Calibre database: " ++ "HttpError 403"),
        [LocalFile; DriveFile])
  /\ Zotero.get_items_from_local_db (Some (Err "OperationalError: no such table")) = []
  /\ Zotero.get_items_from_gdrive true (Err "HttpError 403") = []
  /\ Zotero.items_from_api (Err "ConnectionError: network unreachable") = []
  /\ Zotero.display_items (fun _ => Ok "") (fun _ => Ok "") None "Zotero Items"
       [] [] [] (fun h => Ok h)
       (fst (Zotero.get_items true (Some (Err "OperationalError: no such table"))
               (Err "HttpError 403") (Err "ConnectionError: network unreachable")))
       Html (Some "items.html") []
     = Ok [Print "No items found."].
Proof.
  intros db nothing failing.
  destruct (proj1 (proj2 (proj2 (proj2 source_failures_handling)))
              true (Some (Err "OperationalError: no such table"))
              (Err "HttpError 403") (Err "ConnectionError: network unreachable")
              eq_refl eq_refl eq_refl) as [_ H3].
  destruct (H3 (fun _ => Ok "") (fun _ => Ok "") None "Zotero Items"
              [] [] [] (fun h => Ok h) Html (Some "items.html") []) as [H4 _].
  destruct (proj2 (proj2 (proj2 (proj2 source_failures_handling)))
              example_library (fun _ => false) nothing eq_refl) as (_ & H1 & _).
  destruct (proj2 (proj2 (proj2 (proj2 source_failures_handling)))
              example_library (fun _ => false) failing eq_refl) as (_ & _ & H2).
  split; [reflexivity|]. split; [reflexivity|]. split; [reflexivity|].
  split; [apply H1; reflexivity|].
  split; [reflexivity|].
  split; [apply H2; reflexivity|].
  split; [reflexivity|]. split; [reflexivity|]. split; [reflexivity|].
  exact H4.
Defined.

Lemma attachment_size_policy_witness :
  Calibre.send_book_email example_file_id example_metadata example_download
    (sample_book 3 "Analysis" "2024-04-04") [] (Ok "Analysis") true
    "x@example.org" (fun _ => Ok tt)
  = Ok (Calibre.mk_email "x@example.org" "[Calibre] Random Book: Analysis" []
          ("Analysis" ++ Calibre.email_notice))
  /\ example_zotero_outcome = (true, Some example_zotero_message)
  /\ Zotero.binary_parts example_zotero_message = [("/tmp/paper.pdf", "%PDF-Z")].
Proof.
  assert (H1 : Calibre.send_book_email example_file_id example_metadata example_download
    (sample_book 3 "Analysis" "2024-04-04") [] (Ok "Analysis") true
    "x@example.org" (fun _ => Ok tt)
  = Ok (Calibre.mk_email "x@example.org" "[Calibre] Random Book: Analysis" []
          ("Analysis" ++ Calibre.email_notice))) by reflexivity.
  assert (H2 : example_zotero_outcome = (true, Some example_zotero_message))
    by (lazy; reflexivity).
  split; [exact H1|]. split; [exact H2|].
  pose proof (proj1 attachment_size_policy _ _ _ _ _ _ _ _ _ H1) as _.
  destruct (proj2 attachment_size_policy _ _ _ _ _ _ _ _ _ _ _ _ _ _ H2)
    as (papers & Hc & Hp).
  injection Hc as <-. cbv zeta in Hp.
  assert (Hx : Nat.ltb Zotero.size_limit
    (Zotero.total_size (Zotero.paper_info_list (fun p => p) example_zotero_paths
       (fun _ => Some "Z") example_zotero_download (fun _ => ["A. Author"])
       (fun _ => None) [example_item "K1" "Paper one"])) = false)
    by (lazy; reflexivity).
  rewrite Hx in Hp. rewrite Hp. lazy. reflexivity.
Defined.

Lemma math_filter_keep_rule_witness :
  let tags_of := example_tags [(1, ["math"]); (2, ["Math"; "algebra"]); (3, ["poetry"])] in
  let b1 := sample_book 1 "Algebra" "2024-03-03" in
  let b2 := sample_book 2 "Real Analysis" "2024-02-02" in
  let b3 := sample_book 3 "Poems" "2024-01-01" in
  (In "math" (map lower (tags_of (Calibre.book_id b1)))
   /\ In "math" (map lower (tags_of (Calibre.book_id b2)))
   /\ (forall t, In t (map lower (tags_of (Calibre.book_id b3))) ->
        str_contains t "math" = false /\ str_contains "math" t = false))
  /\ Calibre.filter_by_tags tags_of (Calibre.normalize_tags ["math"]) [b1; b2; b3]
     = [b1; b2].
Proof.
  intros tags_of b1 b2 b3.
  assert (H1 : In "math" (map lower (tags_of (Calibre.book_id b1))))
    by (vm_compute; left; reflexivity).
  assert (H2 : In "math" (map lower (tags_of (Calibre.book_id b2))))
    by (vm_compute; left; reflexivity).
  assert (H3 : forall t, In t (map lower (tags_of (Calibre.book_id b3))) ->
               str_contains t "math" = false /\ str_contains "math" t = false).
  { intros t Ht. vm_compute in Ht. destruct Ht as [<- | []]. split; reflexivity. }
  split; [auto|].
  apply (proj2 (proj2 math_filter_keep_rule tags_of b1 b2 b3 H1 H2)). exact H3.
Defined.

Module FurtherWitnesses.

Import ZoteroSearch ZoteroCollections ZoteroDoi.

Lemma extract_file_id_from_drive_url_round_trip_witness :
  ("1AbC_x-9" <> "" /\ all_chars zid_ok "1AbC_x-9" = true) /\
  ZoteroDrive.extract_file_id_from_drive_url
    ("https://drive.google.com/file/d/" ++ "1AbC_x-9" ++ "/view") = Some "1AbC_x-9" /\
  ZoteroDrive.extract_file_id_from_drive_url
    ("https://drive.google.com/open?id=" ++ "1AbC_x-9") = Some "1AbC_x-9" /\
  ZoteroDrive.extract_file_id_from_drive_url
    ("https://docs.google.com/document/d/" ++ "1AbC_x-9" ++ "/edit") = Some "1AbC_x-9".
Proof.
  split; [split; [discriminate | reflexivity]|].
  apply DriveUrlFacts.extract_file_id_from_drive_url_round_trip;
    [discriminate | reflexivity].
Defined.

Lemma send_book_email_file_id_round_trip_witness :
  ("1AbC_x-9" <> "" /\ all_chars CalibreDrive.is_id_char "1AbC_x-9" = true) /\
  CalibreDrive.send_book_email_file_id
    ("https://drive.google.com/file/d/" ++ "1AbC_x-9" ++ "/view") = Some "1AbC_x-9" /\
  CalibreDrive.send_book_email_file_id
    ("https://drive.google.com/open?id=" ++ "1AbC_x-9") = Some "1AbC_x-9".
Proof.
  split; [split; [discriminate | reflexivity]|].
  apply DriveUrlFacts.send_book_email_file_id_round_trip;
    [discriminate | reflexivity].
Defined.

Lemma display_collections_html_unescaped_witness :
  let c := mk_collection "<b>Math</b>" "ABCD1234" in
  In c [c] /\
  display_collections (fun _ => Ok "") [c] Html None
    = Ok [Print (collections_html [c])] /\
  str_contains (collections_html [c])
    ("<p><strong>Name:</strong> " ++ coll_name c ++ "</p>") = true /\
  str_contains (collections_html [c])
    ("<p><strong>Key:</strong> " ++ coll_key c ++ "</p>") = true.
Proof.
  intros c. split; [left; reflexivity|].
  apply CollectionFacts.display_collections_html_unescaped. left; reflexivity.
Defined.

Lemma extract_doi_doi_org_url_witness :
  (truthy None = None /\
   all_chars (fun c => negb (Ascii.eqb c "#") && negb (Ascii.eqb c "?"))
     "10.1000/xyz" = true /\
   str_contains ("10.1000/xyz" ++ "#sec") "doi.org/" = false /\
   ("#sec" = "" \/ exists y, "#sec" = String "#" y \/ "#sec" = String "?" y)) /\
  extract_doi (Some (mk_item_data None
                       (Some ("https://doi.org/" ++ "10.1000/xyz" ++ "#sec")) None))
  = Some "10.1000/xyz".
Proof.
  split.
  - split; [reflexivity|]. split; [reflexivity|]. split; [reflexivity|].
    right. exists "sec". left. reflexivity.
  - apply DoiFacts.extract_doi_doi_org_url; [reflexivity | reflexivity | reflexivity |].
    right. exists "sec". left. reflexivity.
Defined.

Lemma extract_doi_extra_line_witness :
  (truthy None = None /\ lower "DOI:" = "doi:" /\
   all_chars (fun c => Nat.leb 33 (nat_of_ascii c) && Nat.leb (nat_of_ascii c) 126)
     "10.1000/xyz" = true /\
   "10.1000/xyz" <> "" /\
   ((newline ++ "Pages: 12") = "" \/ exists y, (newline ++ "Pages: 12") = (newline ++ y))) /\
  extract_doi (Some (mk_item_data None None
                       (Some ("DOI:" ++ " " ++ "10.1000/xyz" ++ newline ++ "Pages: 12"))))
  = Some "10.1000/xyz".
Proof.
  split.
  - split; [reflexivity|]. split; [reflexivity|]. split; [reflexivity|].
    split; [discriminate|]. right. exists "Pages: 12". reflexivity.
  - apply DoiFacts.extract_doi_extra_line;
      [reflexivity | reflexivity | reflexivity | discriminate |].
    right. exists "Pages: 12". reflexivity.
Defined.

End FurtherWitnesses.
